(** * badcrossbar: validation, assembly of [g] and [i], and [compute]

    A shallow embedding of [badcrossbar/check.py], [badcrossbar/compute.py]
    and [badcrossbar/computing/fill.py].

    - numpy's float64 entries are Rocq's primitive binary64 floats, so that
      [/], [<] and [==] below are the IEEE operations numpy performs;
    - an [ndarray] is a shape, a dtype and its entries in row-major order;
    - Python exceptions are values of [exn], and a function that may raise
      returns [exn + A];
    - [compute] and [check.crossbar_requirements] allocate arrays, so they
      run in a state-and-exception monad over a store of arrays;
    - [computing/kcl.py] and [computing/extract.py] are not among the
      sources: the stencil of [kcl.apply] and the shapes of
      [extract.solution] follow the specification, and [compute] is
      parametric in the function that it calls last. *)

From Stdlib Require Import ZArith String Ascii Floats DecimalString.
From stdpp Require Import base option list gmap strings.

Local Open Scope string_scope.

(** ** Python values *)

(** The exceptions that the modelled code raises, with their messages.
    [AxisError] is numpy's, which derives from both [ValueError] and
    [IndexError]. *)
Inductive exn : Type :=
  | TypeError (msg : string)
  | ValueError (msg : string)
  | IndexError (msg : string)
  | OverflowError (msg : string)
  | AxisError (msg : string).

(** The class of an exception, [type(e)]: what an [except] clause
    dispatches on. *)
Inductive exn_class : Type :=
  TypeErrorC | ValueErrorC | IndexErrorC | OverflowErrorC | AxisErrorC.

Definition class_of (e : exn) : exn_class :=
  match e with
  | TypeError _ => TypeErrorC
  | ValueError _ => ValueErrorC
  | IndexError _ => IndexErrorC
  | OverflowError _ => OverflowErrorC
  | AxisError _ => AxisErrorC
  end.

Definition message_of (e : exn) : string :=
  match e with
  | TypeError msg | ValueError msg | IndexError msg
  | OverflowError msg | AxisError msg => msg
  end.

(** Python numbers: [int] (unbounded; [bool] is a subclass of [int], so
    [True] and [False] are [PyInt 1] and [PyInt 0]) and [float]. *)
Inductive number : Type :=
  | PyInt (z : Z)
  | PyFloat (f : float).

(** The values that the interconnect resistances, declared as [any], range
    over in this model: numbers, [None] and strings. *)
Inductive pyval : Type :=
  | PyNum (x : number)
  | PyNone
  | PyStr (s : string).

(** [type(value).__name__] *)
Definition type_name (v : pyval) : string :=
  match v with
  | PyNum (PyInt _) => "int"
  | PyNum (PyFloat _) => "float"
  | PyNone => "NoneType"
  | PyStr _ => "str"
  end.

(** [float(z)]: the binary64 value nearest to [z], ties to even. *)
Definition float_of_Z (z : Z) : float :=
  SF2Prim (binary_normalize prec emax z 0 false).

Definition to_float (x : number) : float :=
  match x with
  | PyInt z => float_of_Z z
  | PyFloat f => f
  end.

(** The conversion of a Python number to a float where the code divides an
    array by it: an [int] whose nearest binary64 value would be infinite
    raises [OverflowError]. *)
Definition py_float (x : number) : exn + float :=
  match x with
  | PyInt z =>
      if is_infinity (float_of_Z z)
      then inl (OverflowError "int too large to convert to float")
      else inr (float_of_Z z)
  | PyFloat f => inr f
  end.

(** Python compares an [int] with a [float] by value, without rounding the
    [int]: [m * 2^e] against [z]. *)
Definition Z_compare_SF (z : Z) (f : spec_float) : option comparison :=
  match f with
  | S754_zero _ => Some (z ?= 0)%Z
  | S754_infinity s => Some (if s then Gt else Lt)
  | S754_nan => None
  | S754_finite s m e =>
      let v := (if s then Z.neg m else Z.pos m) in
      Some (if (0 <=? e)%Z then (z ?= v * 2 ^ e)%Z
            else (z * 2 ^ (- e) ?= v)%Z)
  end.

Definition num_compare (x y : number) : option comparison :=
  match x, y with
  | PyInt a, PyInt b => Some (a ?= b)%Z
  | PyFloat a, PyFloat b => SFcompare (Prim2SF a) (Prim2SF b)
  | PyInt a, PyFloat b => Z_compare_SF a (Prim2SF b)
  | PyFloat a, PyInt b => option_map CompOpp (Z_compare_SF b (Prim2SF a))
  end.

Definition num_eqb (x y : number) : bool :=
  match num_compare x y with Some Eq => true | _ => false end.

Definition num_ltb (x y : number) : bool :=
  match num_compare x y with Some Lt => true | _ => false end.

(** [a == b]; never raises. *)
Definition py_eq (a b : pyval) : bool :=
  match a, b with
  | PyNum x, PyNum y => num_eqb x y
  | PyNone, PyNone => true
  | PyStr s, PyStr t => bool_decide (s = t)
  | _, _ => false
  end.

Definition unsupported (op : string) (a b : pyval) : exn :=
  TypeError ("'" ++ op ++ "' not supported between instances of '"
             ++ type_name a ++ "' and '" ++ type_name b ++ "'").

(** [a < b] on Python values: ordering is only defined between two numbers
    (and between two strings, which the code never compares). *)
Definition py_lt (a b : pyval) : exn + bool :=
  match a, b with
  | PyNum x, PyNum y => inr (num_ltb x y)
  | PyStr s, PyStr t => inr (String.ltb s t)
  | _, _ => inl (unsupported "<" a b)
  end.

Definition py_zero : pyval := PyNum (PyInt 0).

(** [0 <= x]: [x] is a number that is not negative (and not NaN). *)
Definition non_negative (x : number) : Prop :=
  num_compare (PyInt 0) x = Some Lt ∨ num_compare (PyInt 0) x = Some Eq.

(** ** Exceptions as a monad *)

Global Instance exn_ret : MRet (sum exn) := λ A x, inr x.
Global Instance exn_bind : MBind (sum exn) := λ A B f m,
  match m with
  | inl e => inl e
  | inr x => f x
  end.

(** [for x in xs: body(x)] where the body may raise. *)
Fixpoint for_each {A} (xs : list A) (body : A → exn + unit) : exn + unit :=
  match xs with
  | [] => inr tt
  | x :: xs' => body x;; for_each xs' body
  end.

Definition raises {A} (r : exn + A) : Prop := ∃ e, r = inl e.

(** [for x in xs: ys.append(body(x))] where the body may raise. *)
Fixpoint map_each {A B} (xs : list A) (body : A → exn + B) : exn + list B :=
  match xs with
  | [] => inr []
  | x :: xs' => y ← body x; ys ← map_each xs' body; mret (y :: ys)
  end.

(** [d.get(key)] on a dictionary held in insertion order. *)
Fixpoint dict_get {A} (key : string) (d : list (string * A)) : option A :=
  match d with
  | [] => None
  | (k, v) :: d' => if bool_decide (k = key) then Some v else dict_get key d'
  end.

(** ** numpy arrays *)

Inductive dtype : Type := float64 | int64 | bool_ | str_ | object_.

(** [np.issubdtype(dtype, np.number)] *)
Definition issubdtype_number (d : dtype) : bool :=
  match d with
  | float64 | int64 => true
  | bool_ | str_ | object_ => false
  end.

(** An array: its shape, its dtype and its entries in row-major order.  The
    entries of an [int64] array are held by their float64 values, which is
    what numpy's true division computes with and which has the same sign. *)
Record ndarray : Type := mk_ndarray {
  shape : list nat;
  dtype_of : dtype;
  data : list float
}.

Definition ndim (a : ndarray) : nat := length (shape a).
Definition size (a : ndarray) : nat := foldr Nat.mul 1 (shape a).

(** An array holds exactly [size] entries. *)
Definition well_formed (a : ndarray) : Prop := length (data a) = size a.

Global Instance ndarray_inhabited : Inhabited ndarray :=
  populate (mk_ndarray [0] float64 []).

(** [str(n)] for a natural number. *)
Definition str (n : nat) : string := NilEmpty.string_of_uint (Nat.to_uint n).

(** [a.shape[d]] *)
Definition shape_at (a : ndarray) (d : nat) : exn + nat :=
  match shape a !! d with
  | Some k => inr k
  | None => inl (IndexError "tuple index out of range")
  end.

(** [0 in array]: some entry compares equal to zero. *)
Definition contains_zero (a : ndarray) : bool :=
  existsb (λ x, x =? 0)%float (data a).

(** ** The store of arrays

    Arrays are mutable objects that Python passes by reference: a variable
    holds a location, and the store maps locations to arrays. *)

Abbreviation loc := positive.
Abbreviation store := (gmap positive ndarray).

(** Computations that read and allocate arrays and may raise. *)
Definition M (A : Type) : Type := store → (exn + A) * store.

Global Instance M_ret : MRet M := λ A x σ, (inr x, σ).
Global Instance M_bind : MBind M := λ A B f m σ,
  match m σ with
  | (inl e, σ') => (inl e, σ')
  | (inr x, σ') => f x σ'
  end.

(** A computation that touches no array. *)
Definition lift {A} (r : exn + A) : M A := λ σ, (r, σ).

(** The array a reference points to. *)
Definition read (l : loc) : M ndarray := λ σ, (inr (σ !!! l), σ).

(** [np.array(obj)]: a new array, holding a copy of [obj]'s entries. *)
Definition np_array (obj : loc) : M loc := λ σ,
  let l := fresh (dom σ) in (inr l, <[l := σ !!! obj]> σ).

(** badcrossbar/check.py *)
Module check.

(** [n_dimensional(array, n_list, name)] *)
Definition n_dimensional (array : ndarray) (n_list : list nat) (name : string)
  : exn + unit :=
  let dim := ndim array in
  if bool_decide (dim ∉ n_list) then
    let n_list_str :=
      match n_list with
      | [n] => str n
      | _ => String.concat "- or " (map str n_list)
      end in
    inl (TypeError ("'" ++ name ++ "' should be " ++ n_list_str
                    ++ "-dimensional array! Instead received " ++ str dim
                    ++ "-dimensional array."))
  else inr tt.

(** [numeric_array(array, name)] *)
Definition numeric_array (array : ndarray) (name : string) : exn + unit :=
  if negb (issubdtype_number (dtype_of array)) then
    inl (TypeError ("'" ++ name ++ "' should only contain numbers!"))
  else inr tt.

(** [non_empty(array, name)] *)
Definition non_empty (array : ndarray) (name : string) : exn + unit :=
  if (size array =? 0)%nat then
    inl (ValueError ("'" ++ name ++ "' array is empty!"))
  else inr tt.

(** [match_shape]: its keyword arguments in the order given, each an array
    with the dimension along which it is matched. *)
Definition match_shape (kwargs : list (string * (ndarray * nat))) : exn + unit :=
  match kwargs with
  | [] => inl (IndexError "list index out of range")
  | (first_key, first_value) :: _ =>
      dim ← shape_at first_value.1 first_value.2;
      for_each kwargs (λ '(key, value),
        d ← shape_at value.1 value.2;
        if negb (d =? dim)%nat then
          inl (ValueError ("Dimension " ++ str value.2 ++ " of array '" ++ key
                           ++ "' should match dimension " ++ str first_value.2
                           ++ " of array '" ++ first_key ++ "'!"))
        else inr tt)
  end.

(** [non_negative_array(array, name)] *)
Definition non_negative_array (array : ndarray) (name : string) : exn + unit :=
  if existsb (λ x, x <? 0)%float (data array) then
    inl (ValueError ("'" ++ name ++ "' array contains at least one negative value!"))
  else inr tt.

(** [non_infinite_array(array, name)] *)
Definition non_infinite_array (array : ndarray) (name : string) : exn + unit :=
  if existsb (λ x, x =? infinity)%float (data array)
     || existsb (λ x, x =? neg_infinity)%float (data array) then
    inl (ValueError ("'" ++ name ++ "' array contains at least one value with "
                     ++ "infinite magnitude!"))
  else inr tt.

(** [number(value, name)] *)
Definition number (value : pyval) (name : string) : exn + unit :=
  match value with
  | PyNum _ => inr tt
  | _ => inl (TypeError ("Type " ++ type_name value ++ " of '" ++ name
                         ++ "' is not supported. Use int or float instead."))
  end.

(** [non_negative_number(value, name)] *)
Definition non_negative_number (value : pyval) (name : string) : exn + unit :=
  negative ← py_lt value py_zero;
  if negative : bool then inl (ValueError ("'" ++ name ++ "' is negative!"))
  else inr tt.

Definition short_circuit_msg : string :=
  "At least some crossbar devices have zero resistance "
  ++ "causing short circuit!".

Definition unsupported_zero_msg : string :=
  "At least some crossbar devices have zero resistance! "
  ++ "This is not currently supported even if it does not "
  ++ "cause short circuit.".

(** [short_circuit(resistances, r_i_word_line, r_i_bit_line)] *)
Definition short_circuit (resistances : ndarray)
    (r_i_word_line r_i_bit_line : pyval) : exn + unit :=
  if contains_zero resistances then
    let err_txt :=
      if py_eq r_i_word_line r_i_bit_line && py_eq r_i_bit_line py_zero
      then short_circuit_msg
      else unsupported_zero_msg in
    inl (ValueError err_txt)
  else inr tt.

(** [crossbar_requirements(resistances, applied_voltages, r_i_word_line,
    r_i_bit_line)] *)
Definition crossbar_requirements (resistances applied_voltages : loc)
    (r_i_word_line r_i_bit_line : pyval) : M (loc * loc) :=
  resistances ← np_array resistances;
  applied_voltages ← np_array applied_voltages;
  R ← read resistances;
  V ← read applied_voltages;
  lift (for_each [(R, "resistances"); (V, "applied_voltages")]
          (λ '(value, name),
             n_dimensional value [2] name;;
             numeric_array value name;;
             non_empty value name);;
        non_negative_array R "resistances";;
        match_shape [("resistances", (R, 0)); ("applied_voltages", (V, 0))];;
        for_each [(r_i_word_line, "r_i_word_line"); (r_i_bit_line, "r_i_bit_line")]
          (λ '(value, name),
             let name := if py_eq r_i_word_line r_i_bit_line then "r_i" else name in
             number value name;;
             non_negative_number value name);;
        short_circuit R r_i_word_line r_i_bit_line);;
  mret (resistances, applied_voltages).

(** [not_none]: its keyword arguments in the order given, [None] being
    Rocq's [None]; the dictionary of the items that are not [None]. *)
Definition not_none {A} (kwargs : list (string * option A))
  : exn + list (string * A) :=
  let '(valid_items, all_none) :=
    foldl (λ '(valid_items, all_none) '(key, value),
             match value with
             | Some v => ((valid_items ++ [(key, v)])%list, false)
             | None => (valid_items, all_none)
             end)
          (([] : list (string * A)), true) kwargs in
  if all_none : bool then
    inl (ValueError ("At least one of {" ++ String.concat ", " (map fst kwargs)
                     ++ "} should be not None!"))
  else inr valid_items.

Section plotting.

(** [utils.average_if_3D] is not among the sources: [plotting_requirements]
    is modelled over any function in its place. *)
Variable average_if_3D : ndarray → ndarray.

(** [plotting_requirements(device_branch_vals, word_line_branch_vals,
    bit_line_branch_vals, word_line_node_vals, bit_line_node_vals,
    branches)].  The arrays it returns are new ones and it shares none with
    its caller, so arrays are values here; the tuple it returns is a list. *)
Definition plotting_requirements
    (device_branch_vals word_line_branch_vals bit_line_branch_vals
     word_line_node_vals bit_line_node_vals : option ndarray) (branches : bool)
  : exn + list (option ndarray) :=
  valid_arrays ←
    (if branches then
       not_none [("device_branch_vals", device_branch_vals);
                 ("word_line_branch_vals", word_line_branch_vals);
                 ("bit_line_branch_vals", bit_line_branch_vals)]
     else
       not_none [("word_line_node_vals", word_line_node_vals);
                 ("bit_line_node_vals", bit_line_node_vals)]);
  valid_arrays ←
    map_each valid_arrays (λ '(key, value),
      numeric_array value key;;
      non_empty value key;;
      n_dimensional value [2; 3] key;;
      let value := average_if_3D value in
      non_infinite_array value key;;
      mret (key, value));
  (if negb (length valid_arrays =? 1)%nat then
     for_each [0; 1] (λ dim,
       let dim_arrays := map (λ '(key, value), (key, (value, dim))) valid_arrays in
       match_shape dim_arrays)
   else inr tt);;
  if branches then
    mret [dict_get "device_branch_vals" valid_arrays;
          dict_get "word_line_branch_vals" valid_arrays;
          dict_get "bit_line_branch_vals" valid_arrays]
  else
    mret [dict_get "word_line_node_vals" valid_arrays;
          dict_get "bit_line_node_vals" valid_arrays].

End plotting.

End check.

(** ** The numpy and scipy operations that [fill] uses

    An array of any rank is its shape and its entries in row-major order;
    the operations below compute on the entries as binary64 numbers, which
    is what numpy does on the [float64] and [int64] arrays that validation
    lets through. *)

(** The number of entries of an array of shape [s]. *)
Definition extent (s : list nat) : nat := foldr Nat.mul 1 s.

(** The index along each dimension of the entry at row-major position [t]
    of an array of shape [s], and the position of an index. *)
Fixpoint unravel (s : list nat) (t : nat) : list nat :=
  match s with
  | [] => []
  | d :: s' => (t / extent s') mod d :: unravel s' t
  end.

Fixpoint ravel (s idx : list nat) : nat :=
  match s, idx with
  | d :: s', i :: idx' => i * extent s' + ravel s' idx'
  | _, _ => 0
  end.

(** [a[r, c]] of a two-dimensional array. *)
Definition get2 (a : ndarray) (r c : nat) : float :=
  nth (r * default 0 (shape a !! 1) + c) (data a) 0%float.

(** The [nr x nc] float64 array whose entry [(r, c)] is [f r c]. *)
Definition build2 (nr nc : nat) (f : nat → nat → float) : ndarray :=
  mk_ndarray [nr; nc] float64
    (flat_map (λ r, map (f r) (seq 0 nc)) (seq 0 nr)).

(** How numpy prints a shape. *)
Definition str_shape (s : list nat) : string :=
  match s with
  | [k] => "(" ++ str k ++ ",)"
  | _ => "(" ++ String.concat "," (map str s) ++ ")"
  end.

(** [np.zeros(shape)] *)
Definition np_zeros (shp : nat * nat) : ndarray :=
  build2 shp.1 shp.2 (λ _ _, 0%float).

(** [a.reshape(nr, nc)] *)
Definition reshape (a : ndarray) (nr nc : nat) : exn + ndarray :=
  if negb (nr * nc =? size a)%nat then
    inl (ValueError ("cannot reshape array of size " ++ str (size a)
                     ++ " into shape " ++ str_shape [nr; nc]))
  else inr (mk_ndarray [nr; nc] (dtype_of a) (data a)).

(** [np.repeat(a, repeats, axis)]: every entry repeated [repeats] times
    along [axis]; an array of no dimensions is taken as one of a single
    entry, and an axis that the array does not have raises numpy's
    [AxisError].  With [inner] entries per index along [axis], position [t]
    of the result holds the entry at position
    [(t / (inner * repeats)) * inner + t mod inner] of [a]. *)
Definition np_repeat (a : ndarray) (repeats : nat) (axis : nat) : exn + ndarray :=
  let s := match shape a with [] => [1] | s => s end in
  match s !! axis with
  | None => inl (AxisError ("axis " ++ str axis
                            ++ " is out of bounds for array of dimension "
                            ++ str (length s)))
  | Some along =>
      let inner := extent (drop (S axis) s) in
      let shape' := <[axis := along * repeats]> s in
      inr (mk_ndarray shape' (dtype_of a)
             (map (λ t, nth ((t / (inner * repeats)) * inner + t mod inner)
                            (data a) 0%float)
                  (seq 0 (extent shape'))))
  end.

(** One dimension of numpy's broadcasting rule. *)
Definition broadcast_dim (d1 d2 : nat) : option nat :=
  if (d1 =? d2)%nat then Some d1
  else if (d1 =? 1)%nat then Some d2
  else if (d2 =? 1)%nat then Some d1
  else None.

(** The index into an operand of extent [d] for index [k] of the result. *)
Definition broadcast_index (d k : nat) : nat := if (d =? 1)%nat then 0 else k.

(** numpy's broadcasting rule on two shapes, which are aligned at their last
    dimension; here on the reversed shapes. *)
Fixpoint broadcast_reversed (r1 r2 : list nat) : option (list nat) :=
  match r1, r2 with
  | [], r => Some r
  | r, [] => Some r
  | d1 :: r1', d2 :: r2' =>
      d ← broadcast_dim d1 d2;
      r ← broadcast_reversed r1' r2';
      Some (d :: r)
  end.

Definition broadcast_shapes (s1 s2 : list nat) : option (list nat) :=
  reverse <$> broadcast_reversed (reverse s1) (reverse s2).

(** The position in an operand of shape [s] of the entry that the result
    takes at index [idx]: the operand's dimensions are the last ones of the
    result, and a dimension of extent 1 is read at index 0. *)
Definition broadcast_position (s idx : list nat) : nat :=
  ravel s (zip_with broadcast_index s (drop (length idx - length s) idx)).

(** The dtype of a true division: an array of objects stays one, numbers
    give [float64]. *)
Definition quotient_dtype (d1 d2 : dtype) : dtype :=
  match d1, d2 with
  | object_, _ | _, object_ => object_
  | _, _ => float64
  end.

(** [np.divide(a, b)]: element-wise true division, with broadcasting. *)
Definition np_divide (a b : ndarray) : exn + ndarray :=
  match broadcast_shapes (shape a) (shape b) with
  | None =>
      inl (ValueError ("operands could not be broadcast together with shapes "
                       ++ str_shape (shape a) ++ " " ++ str_shape (shape b)
                       ++ " "))
  | Some s =>
      inr (mk_ndarray s (quotient_dtype (dtype_of a) (dtype_of b))
             (map (λ t, let idx := unravel s t in
                        (nth (broadcast_position (shape a) idx) (data a) 0
                         / nth (broadcast_position (shape b) idx) (data b) 0)%float)
                  (seq 0 (extent s))))
  end.

(** [a / x] for a Python number [x]: every entry divided by [float(x)]; an
    [int] too large for a float raises [OverflowError]. *)
Definition divide_scalar (a : ndarray) (x : number) : exn + ndarray :=
  divisor ← py_float x;
  inr (mk_ndarray (shape a) (quotient_dtype (dtype_of a) float64)
         (map (λ v, v / divisor)%float (data a))).

(** [len(range(0, stop, step))] *)
Definition range_len (stop step : nat) : nat := (stop + step - 1) / step.

(** The shape of a value as it is assigned to a two-dimensional selection:
    leading dimensions of extent 1 are dropped and missing ones are added;
    a value of more dimensions cannot be assigned. *)
Fixpoint as_2d (s : list nat) : option (nat * nat) :=
  match s with
  | [] => Some (1, 1)
  | d :: s' =>
      match s' with
      | [] => Some (1, d)
      | [c] => Some (d, c)
      | _ => if (d =? 1)%nat then as_2d s' else None
      end
  end.

(** [target[:stop:step, :] = value] on a two-dimensional [target]: the rows
    [0, step, 2*step, ...] below [stop] are overwritten by the rows of
    [value], broadcast to the selection. *)
Definition setitem_rows (target : ndarray) (stop step : nat) (value : ndarray)
  : exn + ndarray :=
  if (step =? 0)%nat then inl (ValueError "slice step cannot be zero")
  else
    let nr := default 0 (shape target !! 0) in
    let nc := default 0 (shape target !! 1) in
    let stop := stop `min` nr in
    let selected := range_len stop step in
    let err := ValueError ("could not broadcast input array from shape "
                           ++ str_shape (shape value) ++ " into shape "
                           ++ str_shape [selected; nc]) in
    match as_2d (shape value) with
    | Some (vr, vc) =>
        if ((vr =? selected)%nat || (vr =? 1)%nat)
           && ((vc =? nc)%nat || (vc =? 1)%nat) then
          inr (build2 nr nc (λ r c,
                 if (r mod step =? 0)%nat && (r <? stop)%nat
                 then nth (broadcast_index vr (r / step) * vc
                           + broadcast_index vc c) (data value) 0%float
                 else get2 target r c))
        else inl err
    | None => inl err
    end.

(** [scipy.sparse.lil_matrix]: a shape and the stored entries; an entry that
    is not stored is zero. *)
Record lil_matrix : Type := mk_lil {
  lil_shape : nat * nat;
  lil_entries : gmap (nat * nat) float
}.

(** [lil_matrix(shape)]: the empty matrix. *)
Definition lil_empty (shp : nat * nat) : lil_matrix := mk_lil shp ∅.

(** [G[r, c]] *)
Definition lil_get (G : lil_matrix) (r c : nat) : float :=
  default 0%float (lil_entries G !! (r, c)).

(** [G[r, c] += v] *)
Definition lil_add (r c : nat) (v : float) (G : lil_matrix) : lil_matrix :=
  mk_lil (lil_shape G) (<[(r, c) := (lil_get G r c + v)%float]> (lil_entries G)).

(** The named tuple [r_i] of the interconnect resistances, each an [int] or a
    [float]. *)
Record interconnect : Type := mk_r_i {
  word_line : number;
  bit_line : number
}.

(** [0 in r_i] *)
Definition zero_in (r_i : interconnect) : bool :=
  num_eqb (word_line r_i) (PyInt 0) || num_eqb (bit_line r_i) (PyInt 0).

(** [x > 0] *)
Definition positive_number (x : number) : bool := num_ltb (PyInt 0) x.

(** badcrossbar/computing/kcl.py *)
Module kcl.

(** Modelled from the spec: [computing/kcl.py] is not among the sources.  A
    conductance [g] between nodes [a] and [b] adds [+g] to both diagonal
    entries and [-g] to both off-diagonal entries. *)
Definition add_conductance (g : float) (a b : nat) (G : lil_matrix) : lil_matrix :=
  lil_add b a (- g) (lil_add a b (- g) (lil_add b b g (lil_add a a g G))).

(** Modelled from the spec: the crosspoints [(i, j)] of an [m x n] crossbar,
    which the stencil of [computing/kcl.py] visits row by row. *)
Definition crosspoints (m n : nat) : list (nat * nat) :=
  flat_map (λ i, map (λ j, (i, j)) (seq 0 n)) (seq 0 m).

(** Modelled from the spec: the full-mode stencil at crosspoint [(i, j)].
    The word-line node [w(i,j)] has index [i*n + j] and the bit-line node
    [b(i,j)] has index [m*n + i*n + j]; the device joins [w(i,j)] and
    [b(i,j)], a word-line segment joins [w(i,j)] and [w(i,j+1)], a bit-line
    segment joins [b(i,j)] and [b(i+1,j)]. *)
Definition full_stencil (resistances : ndarray) (r_i : interconnect)
    (m n : nat) (G : lil_matrix) (ij : nat * nat) : lil_matrix :=
  let '(i, j) := ij in
  let w i j := i * n + j in
  let b i j := m * n + i * n + j in
  let G := add_conductance (1 / get2 resistances i j) (w i j) (b i j) G in
  let G := if (j + 1 <? n)%nat
           then add_conductance (1 / to_float (word_line r_i)) (w i j) (w i (j + 1)) G
           else G in
  if (i + 1 <? m)%nat
  then add_conductance (1 / to_float (bit_line r_i)) (b i j) (b (i + 1) j) G
  else G.

(** Modelled from the spec: the reduced-mode stencil, one node [v(i,j)] of
    index [i*n + j] per crosspoint, joined to its neighbour along the line
    type whose resistance is positive. *)
Definition reduced_stencil (along_word_line : bool) (r : number)
    (m n : nat) (G : lil_matrix) (ij : nat * nat) : lil_matrix :=
  let '(i, j) := ij in
  let v i j := i * n + j in
  if along_word_line then
    if (j + 1 <? n)%nat
    then add_conductance (1 / to_float r) (v i j) (v i (j + 1)) G else G
  else
    if (i + 1 <? m)%nat
    then add_conductance (1 / to_float r) (v i j) (v (i + 1) j) G else G.

(** Modelled from the spec: [apply(g_matrix, resistances, r_i)] fills
    [g_matrix] with the stencil of the formulation mode: full mode when both
    interconnect resistances are positive; otherwise the stencil of the line
    type that is not ideal; nothing when both are ideal. *)
Definition apply (g_matrix : lil_matrix) (resistances : ndarray)
    (r_i : interconnect) : lil_matrix :=
  let m := default 0 (shape resistances !! 0) in
  let n := default 0 (shape resistances !! 1) in
  if positive_number (word_line r_i) && positive_number (bit_line r_i) then
    foldl (full_stencil resistances r_i m n) g_matrix (crosspoints m n)
  else if positive_number (bit_line r_i) then
    foldl (reduced_stencil false (bit_line r_i) m n) g_matrix (crosspoints m n)
  else if positive_number (word_line r_i) then
    foldl (reduced_stencil true (word_line r_i) m n) g_matrix (crosspoints m n)
  else g_matrix.

End kcl.

(** badcrossbar/computing/fill.py *)
Module fill.

(** [g(resistances, r_i)] *)
Definition g (resistances : ndarray) (r_i : interconnect) : lil_matrix :=
  let g_shape :=
    if zero_in r_i then (size resistances, size resistances)
    else (2 * size resistances, 2 * size resistances) in
  let g_matrix := lil_empty g_shape in
  let g_matrix := kcl.apply g_matrix resistances r_i in
  g_matrix.

(** [i(applied_voltages, resistances, r_i)] *)
Definition i (applied_voltages resistances : ndarray) (r_i : interconnect)
  : exn + ndarray :=
  p ← shape_at applied_voltages 1;
  let i_shape :=
    if zero_in r_i then (size resistances, p)
    else (2 * size resistances, p) in
  let i_matrix := np_zeros i_shape in
  if positive_number (word_line r_i) then
    value ← divide_scalar applied_voltages (word_line r_i);
    step ← shape_at resistances 1;
    setitem_rows i_matrix (size resistances) step value
  else
    n ← shape_at resistances 1;
    repeated_voltages ← np_repeat applied_voltages n 0;
    column ← reshape resistances (size resistances) 1;
    repeated_resistances ← np_repeat column p 1;
    np_divide repeated_voltages repeated_resistances.

End fill.

(** badcrossbar/computing/extract.py *)
Module extract.

(** Modelled from the spec: the result bundle that [computing/extract.py]
    builds, by the shape of each field; a field that was not computed is
    [None]. *)
Record Currents : Type := mk_currents {
  output : list nat;
  device : option (list nat);
  currents_word_line : option (list nat);
  currents_bit_line : option (list nat)
}.

Record Voltages : Type := mk_voltages {
  voltages_word_line : option (list nat);
  voltages_bit_line : option (list nat)
}.

Record Solution : Type := mk_solution {
  currents : Currents;
  voltages : Voltages
}.

(** The truth value of a Python value. *)
Definition truthy (v : pyval) : bool :=
  match v with
  | PyNum x => negb (num_eqb x (PyInt 0))
  | PyNone => false
  | PyStr s => negb (bool_decide (s = ""))
  end.

(** Modelled from the spec: a suppression flag of [computing/extract.py],
    [kwargs.get(key)] as a condition. *)
Definition flag (key : string) (kwargs : gmap string pyval) : bool :=
  truthy (default PyNone (kwargs !! key)).

(** Modelled from the spec: [computing/extract.py] is not among the sources,
    and the entries of the result need the sparse solve.  What the spec
    fixes, and what this definition gives, is which fields are computed and
    the shape of each: [m x n] for one example and [m x n x p] for more,
    output currents [p x n]; node voltages are [None] when [node_voltages]
    is false, and all currents but the output currents are [None] when
    [all_currents] is false. *)
Definition solution (resistances : loc) (r_i_word_line r_i_bit_line : pyval)
    (applied_voltages : loc) (kwargs : gmap string pyval) : M Solution :=
  R ← read resistances;
  V ← read applied_voltages;
  m ← lift (shape_at R 0);
  n ← lift (shape_at R 1);
  p ← lift (shape_at V 1);
  let branch := if (p =? 1)%nat then [m; n] else [m; n; p] in
  let current := if flag "all_currents" kwargs then Some branch else None in
  let voltage := if flag "node_voltages" kwargs then Some branch else None in
  mret (mk_solution (mk_currents [p; n] current current current)
                    (mk_voltages voltage voltage)).

End extract.

(** badcrossbar/compute.py *)

(** [kwargs.setdefault(key, value)] *)
Definition setdefault (key : string) (value : pyval) (kwargs : gmap string pyval)
  : gmap string pyval :=
  match kwargs !! key with
  | Some _ => kwargs
  | None => <[key := value]> kwargs
  end.

Definition PyTrue : pyval := PyNum (PyInt 1).
Definition PyFalse : pyval := PyNum (PyInt 0).

Section compute.

(** [computing.extract.solution] is not among the sources: [compute] is
    modelled over any function in its place, which receives the references
    and may read, write and allocate arrays. *)
Context {Result : Type}.
Variable solution :
  loc → pyval → pyval → loc → gmap string pyval → M Result.

(** [compute(applied_voltages, resistances, r_i, r_i_word_line,
    r_i_bit_line, kwargs)]; a parameter that the caller leaves out is
    [None].  [utils.message] prints to the console, which is not part of
    the model. *)
Definition compute (applied_voltages resistances : loc)
    (r_i r_i_word_line r_i_bit_line : pyval) (kwargs : gmap string pyval)
  : M Result :=
  let kwargs := setdefault "node_voltages" PyTrue kwargs in
  let kwargs := setdefault "all_currents" PyTrue kwargs in
  let kwargs := setdefault "verbose" (PyNum (PyInt 1)) kwargs in
  let kwargs := setdefault "show_time" PyTrue kwargs in
  let kwargs := setdefault "gap_size" (PyNum (PyInt 5)) kwargs in
  let '(r_i_word_line, r_i_bit_line) :=
    match r_i with
    | PyNone => (r_i_word_line, r_i_bit_line)
    | _ => (r_i, r_i)
    end in
  '(resistances, applied_voltages) ←
    check.crossbar_requirements resistances applied_voltages
      r_i_word_line r_i_bit_line;
  solution resistances r_i_word_line r_i_bit_line applied_voltages kwargs.

End compute.

(** ** Vocabulary of the properties *)

(** [G[a, b]] and [G[b, a]] are the same float64 value, for every pair. *)
Definition symmetric (G : lil_matrix) : Prop :=
  ∀ a b, lil_get G a b = lil_get G b a.

(** What a Python function can do to the arrays of its caller: it reaches
    the arrays it is handed, and the ones it allocates itself; every other
    array of the store is as it was when the function returns or raises. *)
Definition reaches_only_its_arguments {Result : Type}
    (solution : loc → pyval → pyval → loc → gmap string pyval → M Result)
  : Prop :=
  ∀ resistances r_i_word_line r_i_bit_line applied_voltages kwargs
    (σ : store) (l : loc),
    is_Some (σ !! l) → l ≠ resistances → l ≠ applied_voltages →
    (solution resistances r_i_word_line r_i_bit_line applied_voltages kwargs σ).2
      !! l = σ !! l.

(** A stand-in for [extract.solution] that overwrites both arrays it is
    handed with zeros, in place. *)
Definition overwriting_solution (resistances : loc)
    (r_i_word_line r_i_bit_line : pyval) (applied_voltages : loc)
    (kwargs : gmap string pyval) : M unit := λ σ,
  (inr tt, <[applied_voltages := np_zeros (1, 1)]>
             (<[resistances := np_zeros (1, 1)]> σ)).

(** A stand-in for [extract.solution] that returns what it was handed. *)
Definition recording_solution (resistances : loc)
    (r_i_word_line r_i_bit_line : pyval) (applied_voltages : loc)
    (kwargs : gmap string pyval)
  : M (loc * pyval * pyval * loc * gmap string pyval) :=
  mret (resistances, r_i_word_line, r_i_bit_line, applied_voltages, kwargs).

(** The value of a flag of [compute]: [True] unless the caller passes it. *)
Definition flag_passed (key : string) (kwargs : gmap string pyval) : bool :=
  match kwargs !! key with
  | Some v => extract.truthy v
  | None => true
  end.

(** The arrays that the array checks of [crossbar_requirements] let through:
    both two-dimensional, numeric and not empty, no resistance below zero,
    and as many rows of voltages as of resistances. *)
Definition arrays_accepted (resistances applied_voltages : ndarray) : Prop :=
  ndim resistances = 2
  ∧ issubdtype_number (dtype_of resistances) = true
  ∧ size resistances ≠ 0
  ∧ ndim applied_voltages = 2
  ∧ issubdtype_number (dtype_of applied_voltages) = true
  ∧ size applied_voltages ≠ 0
  ∧ (∀ x, x ∈ data resistances → (x <? 0)%float = false)
  ∧ shape resistances !! 0 = shape applied_voltages !! 0.

(** The checks that [crossbar_requirements] runs on its two copies, in the
    order in which it runs them ([crossbar_requirements_run] below). *)
Definition crossbar_checks (R V : ndarray) (r_i_word_line r_i_bit_line : pyval)
  : exn + unit :=
  for_each [(R, "resistances"); (V, "applied_voltages")]
    (λ '(value, name),
       check.n_dimensional value [2] name;;
       check.numeric_array value name;;
       check.non_empty value name);;
  check.non_negative_array R "resistances";;
  check.match_shape [("resistances", (R, 0)); ("applied_voltages", (V, 0))];;
  for_each [(r_i_word_line, "r_i_word_line"); (r_i_bit_line, "r_i_bit_line")]
    (λ '(value, name),
       let name := if py_eq r_i_word_line r_i_bit_line then "r_i" else name in
       check.number value name;;
       check.non_negative_number value name);;
  check.short_circuit R r_i_word_line r_i_bit_line.

(** An interconnect resistance that the checks let through: an [int] or a
    [float] for which [value < 0] is false. *)
Definition resistance_accepted (value : pyval) : Prop :=
  ∃ x, value = PyNum x ∧ num_ltb x (PyInt 0) = false.

(** The items of keyword arguments that are not [None], in their order. *)
Definition provided {A} (kwargs : list (string * option A)) : list (string * A) :=
  omap (λ '(key, value), v ← value; Some (key, v)) kwargs.

(** The keyword arguments that [compute] fills in. *)
Definition compute_defaults : gmap string pyval :=
  {[ "node_voltages" := PyTrue;
     "all_currents" := PyTrue;
     "verbose" := PyNum (PyInt 1);
     "show_time" := PyTrue;
     "gap_size" := PyNum (PyInt 5) ]}.

(** An array of strings, and an array with an infinite entry. *)
Definition A_strings : ndarray := mk_ndarray [1; 1] str_ [0%float].
Definition V_1x3 : ndarray := mk_ndarray [1; 3] float64 [1; 2; 3]%float.
Definition V_3x2 : ndarray :=
  mk_ndarray [3; 2] float64 [1; 2; 3; 4; 5; 6]%float.

(** ** Concrete crossbars

    Small inputs on which the definitions are evaluated below. *)

(** A single device of zero resistance. *)
Definition R_zero : ndarray := mk_ndarray [1; 1] float64 [0%float].

(** A single device of infinite resistance. *)
Definition R_infinite : ndarray := mk_ndarray [1; 1] float64 [infinity].

(** A single device of negative infinite resistance. *)
Definition R_neg_infinite : ndarray := mk_ndarray [1; 1] float64 [neg_infinity].

(** A [2 x 3] crossbar and two examples of voltages on its two word lines. *)
Definition R_2x3 : ndarray :=
  mk_ndarray [2; 3] float64 [1; 2; 3; 4; 5; 6]%float.
Definition V_2x2 : ndarray :=
  mk_ndarray [2; 2] float64 [10; 20; 30; 40]%float.

(** A single device of one ohm. *)
Definition R_1x1 : ndarray := mk_ndarray [1; 1] float64 [1%float].

(** One volt on one word line. *)
Definition V_1x1 : ndarray := mk_ndarray [1; 1] float64 [1%float].

(** A caller's store: resistances at location 1, applied voltages at 2. *)
Definition caller_store (resistances applied_voltages : ndarray) : store :=
  <[2%positive := applied_voltages]> (<[1%positive := resistances]> ∅).

(** The store [caller_store R_2x3 V_2x2] after validation: the two copies at
    the fresh locations 3 and 4. *)
Definition validated_store : store :=
  <[4%positive := V_2x2]> (<[3%positive := R_2x3]> (caller_store R_2x3 V_2x2)).

(** Keyword arguments of a caller: one of the defaults overridden, and a key
    that [compute] has no default for. *)
Definition caller_kwargs : gmap string pyval :=
  {["node_voltages" := PyFalse; "colour" := PyStr "red"]}.

(** * Properties *)

(** ** Numbers *)

Example float_of_Z_3 : float_of_Z 3 = 3%float.
Proof. reflexivity. Qed.

Example py_eq_int_float : py_eq (PyNum (PyInt 1)) (PyNum (PyFloat 1)) = true.
Proof. reflexivity. Qed.

Example py_eq_big : py_eq (PyNum (PyInt (2 ^ 53 + 1))) (PyNum (PyFloat 9007199254740992)) = false.
Proof. reflexivity. Qed.

Example py_eq_negzero : py_eq (PyNum (PyFloat (-0))) py_zero = true.
Proof. reflexivity. Qed.

Example num_gt_nan : num_ltb (PyInt 0) (PyFloat nan) = false.
Proof. reflexivity. Qed.

(** The scenarios of the specification, evaluated. *)

Example short_circuit_scenario :
  check.short_circuit R_zero (PyNum (PyInt 0)) (PyNum (PyInt 0))
  = inl (ValueError "At least some crossbar devices have zero resistance causing short circuit!").
Proof. reflexivity. Qed.

Example unsupported_zero_scenario :
  check.short_circuit R_zero (PyNum (PyInt 1)) (PyNum (PyInt 0))
  = inl (ValueError "At least some crossbar devices have zero resistance! This is not currently supported even if it does not cause short circuit.").
Proof. reflexivity. Qed.

Example ideal_line_scenario :
  fill.i (mk_ndarray [1; 1] float64 [5%float])
         (mk_ndarray [1; 2] float64 [100; 200]%float)
         (mk_r_i (PyInt 0) (PyInt 1))
  = inr (mk_ndarray [2; 1] float64 [5 / 100; 5 / 200]%float).
Proof. reflexivity. Qed.

Example full_mode_scenario :
  fill.i V_2x2 R_2x3 (mk_r_i (PyInt 2) (PyInt 1))
  = inr (mk_ndarray [12; 2] float64
           [5; 10; 0; 0; 0; 0; 15; 20; 0; 0; 0; 0;
            0; 0; 0; 0; 0; 0; 0; 0; 0; 0; 0; 0]%float).
Proof. reflexivity. Qed.

Example g_single_device :
  map (λ '(a, b), lil_get (fill.g R_1x1 (mk_r_i (PyInt 1) (PyInt 1))) a b)
      [(0, 0); (0, 1); (1, 0); (1, 1)]
  = [1; -1; -1; 1]%float.
Proof. reflexivity. Qed.

Example not_a_number_resistance :
  (check.crossbar_requirements 1%positive 2%positive PyNone (PyNum (PyInt 1))
     (caller_store R_1x1 V_1x1)).1
  = inl (TypeError "Type NoneType of 'r_i_word_line' is not supported. Use int or float instead.").
Proof. by vm_compute. Qed.

Example rows_do_not_match :
  (check.crossbar_requirements 1%positive 2%positive
     (PyNum (PyInt 1)) (PyNum (PyInt 1)) (caller_store R_2x3 V_1x1)).1
  = inl (ValueError "Dimension 0 of array 'applied_voltages' should match dimension 0 of array 'resistances'!").
Proof. by vm_compute. Qed.

Lemma Z_compare_SF_0_finite_ne s m e :
  Z_compare_SF 0 (S754_finite s m e) ≠ Some Eq.
Proof.
  unfold Z_compare_SF. intros H.
  assert (∀ a b : Z, Some (a ?= b)%Z = Some Eq → a = b) as Heq.
  { intros a b [= Hab]. by apply Z.compare_eq. }
  destruct (0 <=? e)%Z eqn:He.
  - apply Z.leb_le in He. apply Heq in H.
    assert (0 < 2 ^ e)%Z by (apply Z.pow_pos_nonneg; lia).
    destruct s; nia.
  - apply Heq in H. destruct s; lia.
Qed.

(** A number that compares equal to [0] is the integer zero or a float
    zero of either sign. *)
Lemma num_eqb_zero_inv x :
  num_eqb x (PyInt 0) = true →
  x = PyInt 0 ∨ ∃ f s, x = PyFloat f ∧ Prim2SF f = S754_zero s.
Proof.
  unfold num_eqb. destruct x as [z|f]; simpl.
  - destruct (z ?= 0)%Z eqn:Hz; try discriminate.
    apply Z.compare_eq in Hz. subst; auto.
  - intros H. right. exists f.
    destruct (Prim2SF f) as [s|s| |s m e] eqn:Hf.
    + eauto.
    + destruct s; discriminate.
    + discriminate.
    + exfalso. apply (Z_compare_SF_0_finite_ne s m e).
      destruct (Z_compare_SF 0 (S754_finite s m e)) as [[]|]; simpl in H;
        congruence.
Qed.

(** [x == y] is [x == 0] when [y] is zero. *)
Lemma num_eqb_zero_r x y :
  num_eqb y (PyInt 0) = true → num_eqb x y = num_eqb x (PyInt 0).
Proof.
  intros [->|(f & s & -> & Hf)]%num_eqb_zero_inv; [done|].
  unfold num_eqb, num_compare. destruct x as [z|f']; rewrite Hf.
  - done.
  - destruct (Prim2SF f') as [s'|s'| |s' m e] eqn:Hf'.
    + done.
    + by destruct s'.
    + done.
    + pose proof (Z_compare_SF_0_finite_ne s' m e) as Hne.
      destruct (Z_compare_SF 0 (S754_finite s' m e)) as [[]|];
        try congruence; by destruct s'.
Qed.

Lemma positive_not_zero x :
  positive_number x = true → num_eqb x (PyInt 0) = false.
Proof.
  unfold positive_number, num_ltb, num_eqb. destruct x as [z|f]; simpl.
  - by destruct z.
  - by destruct (Z_compare_SF 0 (Prim2SF f)) as [[]|].
Qed.

Lemma zero_not_positive x :
  num_eqb x (PyInt 0) = true → positive_number x = false.
Proof.
  intros H. destruct (positive_number x) eqn:Hp; [|done].
  apply positive_not_zero in Hp. congruence.
Qed.

Lemma non_negative_cases x :
  non_negative x → positive_number x = true ∨ num_eqb x (PyInt 0) = true.
Proof.
  unfold non_negative, positive_number, num_ltb, num_eqb.
  intros [H|H]; rewrite ?H; [by left|right].
  destruct x as [z|f]; simpl in *.
  - by destruct z.
  - by rewrite H.
Qed.

Lemma both_zero_test (r_i_word_line r_i_bit_line : pyval) :
  py_eq r_i_word_line r_i_bit_line && py_eq r_i_bit_line py_zero
  = py_eq r_i_word_line py_zero && py_eq r_i_bit_line py_zero.
Proof.
  destruct (py_eq r_i_bit_line py_zero) eqn:Hb; [|by rewrite !andb_false_r].
  rewrite !andb_true_r.
  destruct r_i_bit_line as [y| |]; try discriminate.
  destruct r_i_word_line as [x| |]; try done.
  simpl in *. by apply num_eqb_zero_r.
Qed.

(** ** Exceptions and the store *)

Lemma bind_inr {A B} (m : exn + A) (f : A → exn + B) y :
  m ≫= f = inr y → ∃ x, m = inr x ∧ f x = inr y.
Proof. destruct m as [e|x]; [done|]. intros H. by exists x. Qed.

Lemma raises_bind_l {A B} (m : exn + A) (f : A → exn + B) :
  raises m → raises (m ≫= f).
Proof. intros [e ->]. by exists e. Qed.

Lemma raises_bind_r {A B} (m : exn + A) (f : A → exn + B) :
  (∀ x, raises (f x)) → raises (m ≫= f).
Proof. intros H. destruct m as [e|x]; [by exists e|apply H]. Qed.

Lemma fresh_not_allocated (σ : store) (l : loc) :
  is_Some (σ !! l) → l ≠ fresh (dom σ).
Proof.
  intros Hl ->. apply elem_of_dom in Hl. by apply is_fresh in Hl.
Qed.

(** The two copies that validation makes hold the entries of the caller's
    arrays. *)
Lemma copy_resistances (σ : store) (resistances applied_voltages : loc) :
  let l1 := fresh (dom σ) in
  let σ1 := <[l1 := σ !!! resistances]> σ in
  let l2 := fresh (dom σ1) in
  let σ2 := <[l2 := σ1 !!! applied_voltages]> σ1 in
  σ2 !!! l1 = σ !!! resistances.
Proof.
  intros l1 σ1 l2 σ2.
  assert (l1 ≠ l2) as Hne.
  { apply fresh_not_allocated. subst σ1. rewrite lookup_insert_eq. eauto. }
  subst σ2. rewrite lookup_total_insert_ne by done. subst σ1.
  by rewrite lookup_total_insert_eq.
Qed.

Lemma copy_voltages (σ : store) (resistances applied_voltages : loc) :
  let l1 := fresh (dom σ) in
  let σ1 := <[l1 := σ !!! resistances]> σ in
  let l2 := fresh (dom σ1) in
  let σ2 := <[l2 := σ1 !!! applied_voltages]> σ1 in
  is_Some (σ !! applied_voltages) →
  σ2 !!! l2 = σ !!! applied_voltages.
Proof.
  intros l1 σ1 l2 σ2 Hv.
  assert (applied_voltages ≠ l1) by by apply fresh_not_allocated.
  subst σ2. rewrite lookup_total_insert_eq. subst σ1.
  by rewrite lookup_total_insert_ne.
Qed.

(** ** Validation *)

Lemma short_circuit_raises (resistances : ndarray) (r_i_word_line r_i_bit_line : pyval) :
  contains_zero resistances = true →
  check.short_circuit resistances r_i_word_line r_i_bit_line
  = inl (ValueError
           (if py_eq r_i_word_line py_zero && py_eq r_i_bit_line py_zero
            then check.short_circuit_msg else check.unsupported_zero_msg)).
Proof.
  intros H. unfold check.short_circuit. by rewrite H, both_zero_test.
Qed.

Lemma non_negative_array_raises (array : ndarray) (name : string) (x : float) :
  x ∈ data array → (x <? 0)%float = true →
  raises (check.non_negative_array array name).
Proof.
  intros Hx Hneg. unfold check.non_negative_array.
  assert (existsb (λ x, x <? 0)%float (data array) = true) as ->; [|by eexists].
  apply existsb_exists. exists x. by rewrite <- list_elem_of_In.
Qed.

(** [crossbar_requirements] raises as soon as one of its last three groups
    of checks does, whatever the checks before it answer. *)
Lemma crossbar_requirements_raises (σ : store) (resistances applied_voltages : loc)
    (r_i_word_line r_i_bit_line : pyval) :
  raises (check.non_negative_array (σ !!! resistances) "resistances")
  ∨ raises (check.short_circuit (σ !!! resistances) r_i_word_line r_i_bit_line) →
  raises (check.crossbar_requirements resistances applied_voltages
            r_i_word_line r_i_bit_line σ).1.
Proof.
  intros H. unfold check.crossbar_requirements, mbind, M_bind, np_array, read, lift.
  cbn -[for_each check.match_shape check.non_negative_array check.short_circuit].
  rewrite copy_resistances.
  match goal with |- raises (match ?c with _ => _ end).1 =>
    assert (raises c) as [e ->]; [|by exists e] end.
  apply raises_bind_r; intros _.
  destruct H as [H|H]; [by apply raises_bind_l|].
  do 3 (apply raises_bind_r; intros _). done.
Qed.

(** C1, as stated, fails: a zero device resistance raises an exception of
    the same class, [ValueError], whether or not both interconnect
    resistances are zero; only the message differs. *)
Lemma short_circuit_same_error_class :
  ∃ e1 e2,
    check.short_circuit R_zero (PyNum (PyInt 0)) (PyNum (PyInt 0)) = inl e1
    ∧ check.short_circuit R_zero (PyNum (PyInt 1)) (PyNum (PyInt 0)) = inl e2
    ∧ class_of e1 = class_of e2.
Proof. by eexists _, _. Qed.

(** C1 (amended): a resistances array with a zero entry makes
    [crossbar_requirements] raise, and makes [short_circuit] raise a
    [ValueError]: with the short-circuit message when both interconnect
    resistances are zero, with the not-supported message otherwise; the two
    messages differ. *)
Theorem zero_resistance_rejected (σ : store) (resistances applied_voltages : loc)
    (r_i_word_line r_i_bit_line : pyval) :
  contains_zero (σ !!! resistances) = true →
  raises (check.crossbar_requirements resistances applied_voltages
            r_i_word_line r_i_bit_line σ).1
  ∧ check.short_circuit (σ !!! resistances) r_i_word_line r_i_bit_line
    = inl (ValueError
             (if py_eq r_i_word_line py_zero && py_eq r_i_bit_line py_zero
              then check.short_circuit_msg else check.unsupported_zero_msg))
  ∧ check.short_circuit_msg ≠ check.unsupported_zero_msg.
Proof.
  intros Hz. pose proof (short_circuit_raises _ r_i_word_line r_i_bit_line Hz) as Hsc.
  split; [|split; [done|by vm_compute]].
  apply crossbar_requirements_raises. right. rewrite Hsc. by eexists.
Qed.

Lemma zero_resistance_rejected_witness :
  contains_zero (caller_store R_zero V_1x1 !!! 1%positive) = true
  ∧ raises (check.crossbar_requirements 1%positive 2%positive
              (PyNum (PyInt 1)) (PyNum (PyInt 0)) (caller_store R_zero V_1x1)).1.
Proof.
  split; [by vm_compute|].
  apply (zero_resistance_rejected (caller_store R_zero V_1x1) 1%positive 2%positive).
  by vm_compute.
Defined.

(** C6, as stated, fails: an infinite device resistance passes validation. *)
Lemma infinite_resistance_accepted :
  existsb (λ x, abs x =? infinity)%float (data R_infinite) = true
  ∧ (check.crossbar_requirements 1%positive 2%positive
       (PyNum (PyInt 1)) (PyNum (PyInt 1)) (caller_store R_infinite V_1x1)).1
    = inr (3%positive, 4%positive).
Proof. split; by vm_compute. Qed.

(** C6 (amended): a resistances array with an entry equal to negative
    infinity makes [crossbar_requirements] raise, as any negative entry
    does. *)
Theorem negative_infinite_resistance_rejected (σ : store)
    (resistances applied_voltages : loc) (r_i_word_line r_i_bit_line : pyval) :
  neg_infinity ∈ data (σ !!! resistances) →
  raises (check.crossbar_requirements resistances applied_voltages
            r_i_word_line r_i_bit_line σ).1.
Proof.
  intros Hin. apply crossbar_requirements_raises. left.
  by apply (non_negative_array_raises _ _ neg_infinity).
Qed.

Lemma negative_infinite_resistance_rejected_witness :
  raises (check.crossbar_requirements 1%positive 2%positive
            (PyNum (PyInt 1)) (PyNum (PyInt 1))
            (caller_store R_neg_infinite V_1x1)).1.
Proof.
  apply negative_infinite_resistance_rejected.
  vm_compute. apply list_elem_of_here.
Defined.

(** ** Two-dimensional arrays *)

Lemma nth_rows {A} (f : nat → nat → A) (nc : nat) (d : A) :
  ∀ nr s r c, r < nr → c < nc →
    nth (r * nc + c) (flat_map (λ r, map (f r) (seq 0 nc)) (seq s nr)) d
    = f (s + r) c.
Proof.
  induction nr as [|nr IH]; intros s r c Hr Hc; [lia|].
  cbn [seq flat_map]. destruct r as [|r].
  - rewrite app_nth1 by (rewrite length_map, length_seq; lia).
    rewrite Nat.add_0_r. cbn [Nat.mul Nat.add].
    rewrite (nth_indep _ d (f s 0)) by (rewrite length_map, length_seq; lia).
    by rewrite map_nth, seq_nth.
  - rewrite app_nth2 by (rewrite length_map, length_seq; lia).
    rewrite length_map, length_seq.
    replace (S r * nc + c - nc) with (r * nc + c) by lia.
    rewrite IH by lia. f_equal. lia.
Qed.

Lemma length_rows {A} (f : nat → nat → A) (nc : nat) :
  ∀ nr s, length (flat_map (λ r, map (f r) (seq 0 nc)) (seq s nr)) = nr * nc.
Proof.
  induction nr as [|nr IH]; intros s; [done|].
  cbn [seq flat_map]. rewrite length_app, length_map, length_seq, IH. lia.
Qed.

Lemma get2_build2 (nr nc : nat) (f : nat → nat → float) (r c : nat) :
  r < nr → c < nc → get2 (build2 nr nc f) r c = f r c.
Proof. intros Hr Hc. unfold get2, build2. cbn. by rewrite nth_rows. Qed.

Lemma build2_well_formed (nr nc : nat) (f : nat → nat → float) :
  well_formed (build2 nr nc f).
Proof. unfold well_formed, build2, size. cbn. rewrite length_rows. lia. Qed.

Lemma size_2d (a : ndarray) (m n : nat) : shape a = [m; n] → size a = m * n.
Proof. unfold size. intros ->. cbn. lia. Qed.

Lemma nth_map_seq (f : nat → float) (n t : nat) :
  t < n → nth t (map f (seq 0 n)) 0%float = f t.
Proof.
  intros Ht. rewrite (nth_indep _ _ (f 0)) by (by rewrite length_map, length_seq).
  by rewrite map_nth, seq_nth.
Qed.

(** The entries of an array divided by a float. *)
Lemma get2_scaled (a : ndarray) (d : dtype) (divisor : float) (m p r c : nat) :
  shape a = [m; p] → well_formed a → r < m → c < p →
  get2 (mk_ndarray (shape a) d (map (λ v, v / divisor)%float (data a))) r c
  = (get2 a r c / divisor)%float.
Proof.
  intros Hs Hwf Hr Hc. unfold get2. cbn. rewrite Hs. cbn.
  assert (r * p + c < length (data a)) as Hlt.
  { rewrite Hwf, (size_2d a m p) by done. nia. }
  rewrite (nth_indep _ _ (0 / divisor)%float) by (by rewrite length_map).
  by rewrite (map_nth (λ v, v / divisor)%float).
Qed.

Lemma range_len_rows (m n : nat) : 0 < n → range_len (m * n) n = m.
Proof.
  intros Hn. unfold range_len.
  replace (m * n + n - 1) with (n - 1 + m * n) by lia.
  rewrite Nat.div_add by lia. rewrite Nat.div_small by lia. done.
Qed.

(** ** The source matrix [i] *)

Lemma broadcast_index_id d k : k < d → broadcast_index d k = k.
Proof. unfold broadcast_index. intros H. destruct (Nat.eqb_spec d 1); lia. Qed.

Lemma setitem_rows_selected (target value : ndarray) (nr nc stop step : nat) :
  shape target = [nr; nc] → 0 < step →
  shape value = [range_len (stop `min` nr) step; nc] →
  ∃ result,
    setitem_rows target stop step value = inr result
    ∧ shape result = [nr; nc]
    ∧ ∀ r c, r < nr → c < nc →
        get2 result r c
        = if (r mod step =? 0)%nat && (r <? stop `min` nr)%nat
          then get2 value (r / step) c
          else get2 target r c.
Proof.
  intros Ht Hstep Hv. unfold setitem_rows. rewrite Ht, Hv.
  cbn [lookup list_lookup default from_option id as_2d].
  destruct (Nat.eqb_spec step 0) as [|_]; [lia|].
  rewrite !Nat.eqb_refl. cbn [orb andb].
  eexists. split; [done|]. split; [done|].
  intros r c Hr Hc. rewrite get2_build2 by done.
  destruct (Nat.eqb_spec (r mod step) 0) as [Hmod|]; [|done].
  destruct (Nat.ltb_spec r (stop `min` nr)) as [Hlt|]; [|done].
  cbn [andb]. unfold get2. rewrite Hv. cbn [lookup list_lookup default from_option id].
  rewrite !broadcast_index_id; [done|done|].
  unfold range_len.
  apply Nat.Div0.div_lt_upper_bound.
  pose proof (Nat.Div0.div_mod (stop `min` nr + step - 1) step).
  pose proof (Nat.mod_upper_bound (stop `min` nr + step - 1) step).
  nia.
Qed.

Lemma fill_i_positive (applied_voltages resistances : ndarray) (r_i : interconnect) (m n p : nat) :
  shape resistances = [m; n] → shape applied_voltages = [m; p] → 0 < n →
  positive_number (word_line r_i) = true →
  let rows := if zero_in r_i then m * n else 2 * (m * n) in
  match py_float (word_line r_i) with
  | inl e => fill.i applied_voltages resistances r_i = inl e
  | inr divisor =>
      ∃ i_matrix,
        fill.i applied_voltages resistances r_i = inr i_matrix
        ∧ shape i_matrix = [rows; p]
        ∧ ∀ r c, r < rows → c < p →
            get2 i_matrix r c
            = if (r mod n =? 0)%nat && (r <? m * n)%nat
              then get2 (mk_ndarray (shape applied_voltages)
                           (quotient_dtype (dtype_of applied_voltages) float64)
                           (map (λ v, v / divisor)%float (data applied_voltages)))
                     (r / n) c
              else 0%float
  end.
Proof.
  intros HR HV Hn Hpos rows. unfold fill.i, shape_at. rewrite HR, HV, Hpos.
  rewrite (size_2d _ _ _ HR). cbn [lookup list_lookup mbind exn_bind].
  unfold divide_scalar.
  destruct (py_float (word_line r_i)) as [e|divisor]; cbn [mbind exn_bind]; [done|].
  assert ((m * n) `min` rows = m * n) as Hmin
    by (subst rows; destruct (zero_in r_i); lia).
  destruct (setitem_rows_selected
              (np_zeros (if zero_in r_i then (m * n, p) else (2 * (m * n), p)))
              (mk_ndarray (shape applied_voltages)
                 (quotient_dtype (dtype_of applied_voltages) float64)
                 (map (λ v, v / divisor)%float (data applied_voltages)))
              rows p (m * n) n) as (result & -> & Hshape & Hget).
  - subst rows. by destruct (zero_in r_i).
  - done.
  - rewrite Hmin, range_len_rows by done. by cbn.
  - exists result. split; [done|]. split; [done|].
    intros r c Hr Hc. rewrite Hget, Hmin by done.
    destruct ((r mod n =? 0)%nat && (r <? m * n)%nat); [by rewrite HV|].
    unfold np_zeros. apply get2_build2; subst rows; destruct (zero_in r_i); cbn; lia.
Qed.

Lemma broadcast_dim_same d : broadcast_dim d d = Some d.
Proof. unfold broadcast_dim. by rewrite Nat.eqb_refl. Qed.

Lemma np_repeat_rows (a : ndarray) (nr nc k : nat) :
  shape a = [nr; nc] →
  ∃ b, np_repeat a k 0 = inr b
       ∧ shape b = [nr * k; nc]
       ∧ ∀ r c, r < nr * k → c < nc → get2 b r c = get2 a (r / k) c.
Proof.
  intros Hs. unfold np_repeat. rewrite Hs. cbn [lookup list_lookup drop insert list_insert].
  eexists. split; [done|]. split; [done|].
  intros r c Hr Hc. unfold get2 at 1. cbn [shape data lookup list_lookup default from_option id].
  rewrite nth_map_seq by (cbn; nia).
  unfold get2. rewrite Hs. cbn [lookup list_lookup default from_option id extent foldr].
  rewrite Nat.mul_1_r. f_equal.
  assert ((r * nc + c) / (nc * k) = r / k) as ->.
  { rewrite <- Nat.Div0.div_div, Nat.div_add_l by lia.
    by rewrite (Nat.div_small c nc), Nat.add_0_r by lia. }
  assert ((r * nc + c) mod nc = c) as ->; [|done].
  rewrite (Nat.add_comm (r * nc) c), Nat.Div0.mod_add. by apply Nat.mod_small.
Qed.

Lemma np_repeat_columns (a : ndarray) (nr nc k : nat) :
  shape a = [nr; nc] →
  ∃ b, np_repeat a k 1 = inr b
       ∧ shape b = [nr; nc * k]
       ∧ ∀ r c, r < nr → c < nc * k → get2 b r c = get2 a r (c / k).
Proof.
  intros Hs. unfold np_repeat. rewrite Hs. cbn [lookup list_lookup drop insert list_insert].
  eexists. split; [done|]. split; [done|].
  intros r c Hr Hc. unfold get2 at 1. cbn [shape data lookup list_lookup default from_option id].
  rewrite nth_map_seq by (cbn; nia).
  unfold get2. rewrite Hs. cbn [lookup list_lookup default from_option id extent foldr].
  rewrite Nat.mul_1_l, Nat.mul_1_r, Nat.mod_1_r, Nat.add_0_r. f_equal.
  destruct k as [|k]; [lia|].
  replace (r * (nc * S k) + c) with (c + (r * nc) * S k) by lia.
  rewrite Nat.div_add by lia. lia.
Qed.

Lemma reshape_column (a : ndarray) :
  reshape a (size a) 1 = inr (mk_ndarray [size a; 1] (dtype_of a) (data a)).
Proof. unfold reshape. by rewrite Nat.mul_1_r, Nat.eqb_refl. Qed.

Lemma np_divide_same_shape (a b : ndarray) (nr nc : nat) :
  shape a = [nr; nc] → shape b = [nr; nc] →
  ∃ q, np_divide a b = inr q
       ∧ shape q = [nr; nc]
       ∧ ∀ r c, r < nr → c < nc →
           get2 q r c = (get2 a r c / get2 b r c)%float.
Proof.
  intros Ha Hb. unfold np_divide, broadcast_shapes. rewrite Ha, Hb.
  cbn [reverse rev_append broadcast_reversed mbind option_bind].
  rewrite !broadcast_dim_same.
  cbn [mbind option_bind fmap option_fmap option_map reverse rev_append].
  eexists. split; [done|]. split; [done|].
  intros r c Hr Hc. unfold get2 at 1.
  cbn [shape data lookup list_lookup default from_option id].
  rewrite nth_map_seq by (cbn; nia).
  cbn [unravel extent foldr]. rewrite Nat.mul_1_r, Nat.div_1_r.
  assert ((r * nc + c) / nc = r) as ->.
  { rewrite Nat.div_add_l by lia. by rewrite (Nat.div_small c nc), Nat.add_0_r. }
  assert ((r * nc + c) mod nc = c) as ->.
  { rewrite (Nat.add_comm (r * nc) c), Nat.Div0.mod_add. by apply Nat.mod_small. }
  rewrite (Nat.mod_small r nr) by done.
  unfold broadcast_position.
  cbn [length Nat.sub drop zip_with ravel extent foldr].
  rewrite !broadcast_index_id by done.
  unfold get2. rewrite Ha, Hb. cbn [lookup list_lookup default from_option id].
  by rewrite !Nat.mul_1_r, !Nat.add_0_r.
Qed.

Lemma fill_i_ideal (applied_voltages resistances : ndarray) (r_i : interconnect) (m n p : nat) :
  shape resistances = [m; n] → shape applied_voltages = [m; p] →
  positive_number (word_line r_i) = false →
  ∃ i_matrix,
    fill.i applied_voltages resistances r_i = inr i_matrix
    ∧ shape i_matrix = [m * n; p]
    ∧ ∀ r c, r < m * n → c < p →
        get2 i_matrix r c
        = (get2 applied_voltages (r / n) c / nth r (data resistances) 0)%float.
Proof.
  intros HR HV Hpos. unfold fill.i, shape_at. rewrite HR, HV, Hpos.
  cbn [lookup list_lookup mbind exn_bind].
  destruct (np_repeat_rows applied_voltages m p n HV) as (voltages & -> & Hvs & Hvg).
  rewrite reshape_column. cbn [mbind exn_bind].
  destruct (np_repeat_columns
              (mk_ndarray [size resistances; 1] (dtype_of resistances) (data resistances))
              (size resistances) 1 p eq_refl) as (column & -> & Hcs & Hcg).
  cbn [mbind exn_bind].
  rewrite (size_2d _ _ _ HR), Nat.mul_1_l in Hcs, Hcg.
  destruct (np_divide_same_shape voltages column (m * n) p Hvs Hcs)
    as (i_matrix & -> & Hshape & Hget).
  exists i_matrix. split; [done|]. split; [done|].
  intros r c Hr Hc. rewrite Hget, Hvg, Hcg by done.
  rewrite (Nat.div_small c p) by done.
  unfold get2 at 2. cbn. by rewrite Nat.mul_1_r, Nat.add_0_r.
Qed.

(** C3: in full mode the source matrix holds [applied_voltages[i,k] / r_word]
    at the row [i*n] of the leftmost node of word line [i], and zero
    everywhere else.  [fill.i] builds it unless [r_word] is an [int] too
    large for a float, where the division raises [OverflowError]. *)
Theorem i_full_mode (applied_voltages resistances : ndarray) (r_i : interconnect)
    (m n p : nat) :
  shape resistances = [m; n] → shape applied_voltages = [m; p] →
  well_formed applied_voltages → 0 < n →
  positive_number (word_line r_i) = true →
  positive_number (bit_line r_i) = true →
  match py_float (word_line r_i) with
  | inl e => fill.i applied_voltages resistances r_i = inl e
  | inr r_word =>
      ∃ i_matrix,
        fill.i applied_voltages resistances r_i = inr i_matrix
        ∧ shape i_matrix = [2 * m * n; p]
        ∧ (∀ i k, i < m → k < p →
             get2 i_matrix (i * n) k
             = (get2 applied_voltages i k / r_word)%float)
        ∧ (∀ r k, r < 2 * m * n → k < p → (∀ i, i < m → r ≠ i * n) →
             get2 i_matrix r k = 0%float)
  end.
Proof.
  intros HR HV Hwf Hn Hw Hb.
  pose proof (fill_i_positive _ _ r_i m n p HR HV Hn Hw) as Hfill.
  destruct (py_float (word_line r_i)) as [e|r_word]; [done|].
  destruct Hfill as (i_matrix & Hi & Hshape & Hget).
  assert (zero_in r_i = false) as Hz.
  { unfold zero_in. by rewrite !positive_not_zero. }
  rewrite Hz in Hshape, Hget.
  exists i_matrix. split; [done|]. split; [|split].
  - rewrite Hshape. f_equal. lia.
  - intros i k Hi' Hk. rewrite Hget by nia.
    rewrite Nat.Div0.mod_mul, Nat.div_mul by lia.
    cbn [Nat.eqb andb]. destruct (Nat.ltb_spec (i * n) (m * n)); [|nia].
    by apply (get2_scaled _ _ _ m p).
  - intros r k Hr Hk Hother. rewrite Hget by lia.
    destruct (Nat.eqb_spec (r mod n) 0) as [Hmod|]; [|done].
    destruct (Nat.ltb_spec r (m * n)) as [Hlt|]; [|done].
    exfalso. apply (Hother (r / n)).
    + apply Nat.Div0.div_lt_upper_bound. lia.
    + pose proof (Nat.Div0.div_mod r n). lia.
Qed.

Lemma i_full_mode_witness :
  (∃ i_matrix,
     fill.i V_2x2 R_2x3 (mk_r_i (PyInt 2) (PyFloat 1)) = inr i_matrix
     ∧ shape i_matrix = [2 * 2 * 3; 2]
     ∧ (∀ i k, i < 2 → k < 2 →
          get2 i_matrix (i * 3) k = (get2 V_2x2 i k / 2)%float)
     ∧ (∀ r k, r < 2 * 2 * 3 → k < 2 → (∀ i, i < 2 → r ≠ i * 3) →
          get2 i_matrix r k = 0%float))
  ∧ fill.i V_2x2 R_2x3 (mk_r_i (PyInt (10 ^ 400)) (PyFloat 1))
    = inl (OverflowError "int too large to convert to float").
Proof.
  split.
  - refine (i_full_mode V_2x2 R_2x3 (mk_r_i (PyInt 2) (PyFloat 1)) 2 3 2
              _ _ _ _ _ _); first [reflexivity | lia].
  - refine (i_full_mode V_2x2 R_2x3 (mk_r_i (PyInt (10 ^ 400)) (PyFloat 1)) 2 3 2
              _ _ _ _ _ _); first [by vm_compute | lia].
Defined.

(** C4: with an ideal word line the source matrix holds
    [applied_voltages[i,k] / R(i,j)] at the row [i*n + j] of node [v(i,j)],
    for every column [j]. *)
Theorem i_ideal_word_line (applied_voltages resistances : ndarray)
    (r_i : interconnect) (m n p : nat) :
  shape resistances = [m; n] → shape applied_voltages = [m; p] →
  num_eqb (word_line r_i) (PyInt 0) = true →
  ∃ i_matrix,
    fill.i applied_voltages resistances r_i = inr i_matrix
    ∧ ∀ i j k, i < m → j < n → k < p →
        get2 i_matrix (i * n + j) k
        = (get2 applied_voltages i k / get2 resistances i j)%float.
Proof.
  intros HR HV Hw. apply zero_not_positive in Hw.
  destruct (fill_i_ideal _ _ r_i m n p HR HV Hw) as (i_matrix & Hi & _ & Hget).
  exists i_matrix. split; [done|].
  intros i j k Hi' Hj Hk. rewrite Hget by nia.
  rewrite Nat.div_add_l, (Nat.div_small j n), Nat.add_0_r by lia.
  unfold get2 at 3. by rewrite HR.
Qed.

Lemma i_ideal_word_line_witness :
  ∃ i_matrix,
    fill.i V_2x2 R_2x3 (mk_r_i (PyFloat 0) (PyInt 1)) = inr i_matrix
    ∧ ∀ i j k, i < 2 → j < 3 → k < 2 →
        get2 i_matrix (i * 3 + j) k = (get2 V_2x2 i k / get2 R_2x3 i j)%float.
Proof.
  apply (i_ideal_word_line V_2x2 R_2x3 (mk_r_i (PyFloat 0) (PyInt 1)) 2 3 2);
    reflexivity.
Defined.

(** ** The conductance matrix [g] *)

Lemma lil_get_add (G : lil_matrix) (r c : nat) (v : float) (a b : nat) :
  lil_get (lil_add r c v G) a b
  = if decide ((r, c) = (a, b)) then (lil_get G r c + v)%float else lil_get G a b.
Proof.
  unfold lil_get at 1, lil_add. cbn [lil_entries].
  case_decide as H.
  - rewrite H. by rewrite lookup_insert_eq.
  - by rewrite lookup_insert_ne.
Qed.

Lemma foldl_invariant {A B} (P : A → Prop) (f : A → B → A) (xs : list B) :
  (∀ a x, P a → P (f a x)) → ∀ a, P a → P (foldl f a xs).
Proof. intros Hf. induction xs as [|x xs IH]; intros a Ha; cbn; auto. Qed.

Lemma lil_add_diagonal_symmetric (G : lil_matrix) (a : nat) (v : float) :
  symmetric G → symmetric (lil_add a a v G).
Proof.
  intros Hsym x y. rewrite !lil_get_add.
  repeat case_decide; simplify_eq; auto.
Qed.

Lemma lil_add_pair_symmetric (G : lil_matrix) (a b : nat) (v : float) :
  symmetric G → symmetric (lil_add b a v (lil_add a b v G)).
Proof.
  intros Hsym x y. rewrite !lil_get_add.
  repeat case_decide; simplify_eq; auto; by rewrite (Hsym x y).
Qed.

Lemma add_conductance_symmetric (G : lil_matrix) (g : float) (a b : nat) :
  symmetric G → symmetric (kcl.add_conductance g a b G).
Proof.
  intros Hsym. unfold kcl.add_conductance.
  by apply lil_add_pair_symmetric; do 2 apply lil_add_diagonal_symmetric.
Qed.

Lemma add_conductance_shape (G : lil_matrix) (g : float) (a b : nat) :
  lil_shape (kcl.add_conductance g a b G) = lil_shape G.
Proof. done. Qed.

(** Every stencil of [kcl.apply] is a sequence of [add_conductance]: an
    invariant of [add_conductance] is an invariant of [kcl.apply]. *)
Lemma apply_invariant (P : lil_matrix → Prop) (g_matrix : lil_matrix)
    (resistances : ndarray) (r_i : interconnect) :
  (∀ G g a b, P G → P (kcl.add_conductance g a b G)) →
  P g_matrix → P (kcl.apply g_matrix resistances r_i).
Proof.
  intros Hadd HP. unfold kcl.apply.
  repeat case_match; try done; apply foldl_invariant; try done.
  - intros G [i j] HG. unfold kcl.full_stencil. repeat case_match; auto.
  - intros G [i j] HG. unfold kcl.reduced_stencil. repeat case_match; auto.
  - intros G [i j] HG. unfold kcl.reduced_stencil. repeat case_match; auto.
Qed.

Lemma g_shape (resistances : ndarray) (r_i : interconnect) :
  lil_shape (fill.g resistances r_i)
  = if zero_in r_i then (size resistances, size resistances)
    else (2 * size resistances, 2 * size resistances).
Proof.
  unfold fill.g.
  apply (apply_invariant (λ G, lil_shape G = _)); [|done].
  intros G g a b HG. by rewrite add_conductance_shape.
Qed.

(** C2: the conductance matrix is square, of size [2*m*n] when both
    interconnect resistances are positive and of size [m*n] when either of
    them is zero. *)
Theorem g_size (resistances : ndarray) (r_i : interconnect) (m n : nat) :
  shape resistances = [m; n] →
  (positive_number (word_line r_i) = true →
   positive_number (bit_line r_i) = true →
   lil_shape (fill.g resistances r_i) = (2 * m * n, 2 * m * n))
  ∧ (num_eqb (word_line r_i) (PyInt 0) = true
     ∨ num_eqb (bit_line r_i) (PyInt 0) = true →
     lil_shape (fill.g resistances r_i) = (m * n, m * n)).
Proof.
  intros HR. rewrite g_shape, (size_2d _ _ _ HR). unfold zero_in. split.
  - intros Hw Hb. rewrite !positive_not_zero by done.
    cbn [orb]. f_equal; lia.
  - intros [-> | ->]; by rewrite ?orb_true_r.
Qed.

Lemma g_size_witness :
  lil_shape (fill.g R_2x3 (mk_r_i (PyInt 2) (PyFloat 1))) = (2 * 2 * 3, 2 * 2 * 3)
  ∧ lil_shape (fill.g R_2x3 (mk_r_i (PyInt 2) (PyFloat 0))) = (2 * 3, 2 * 3).
Proof.
  split.
  - by apply (g_size R_2x3 (mk_r_i (PyInt 2) (PyFloat 1)) 2 3).
  - apply (g_size R_2x3 (mk_r_i (PyInt 2) (PyFloat 0)) 2 3); [done|by right].
Defined.

(** C5: the conductance matrix is symmetric: [G[a,b]] and [G[b,a]] are the
    same float64 value, for every index pair. *)
Theorem g_symmetric (resistances : ndarray) (r_i : interconnect) (a b : nat) :
  lil_get (fill.g resistances r_i) a b = lil_get (fill.g resistances r_i) b a.
Proof.
  revert a b. change (symmetric (fill.g resistances r_i)). unfold fill.g.
  apply apply_invariant.
  - intros G g a b HG. by apply add_conductance_symmetric.
  - by intros a b.
Qed.

Lemma zero_converts (x : number) :
  num_eqb x (PyInt 0) = true → ∃ f, py_float x = inr f.
Proof.
  intros [->|(f & s & -> & _)]%num_eqb_zero_inv; by eexists.
Qed.

(** C7: for valid input the source matrix has as many rows as the
    conductance matrix ([m*n] when either interconnect resistance is zero,
    [2*m*n] otherwise) and one column per example.  [fill.i] returns it
    unless [r_word] is an [int] too large for a float, where the division
    raises [OverflowError]. *)
Theorem i_rows_match_g (applied_voltages resistances : ndarray)
    (r_i : interconnect) (m n p : nat) :
  shape resistances = [m; n] → shape applied_voltages = [m; p] → 0 < n →
  non_negative (word_line r_i) → non_negative (bit_line r_i) →
  lil_shape (fill.g resistances r_i)
  = (if zero_in r_i then (m * n, m * n) else (2 * m * n, 2 * m * n))
  ∧ match py_float (word_line r_i) with
    | inl e => fill.i applied_voltages resistances r_i = inl e
    | inr _ =>
        ∃ i_matrix,
          fill.i applied_voltages resistances r_i = inr i_matrix
          ∧ shape i_matrix = [(lil_shape (fill.g resistances r_i)).1; p]
    end.
Proof.
  intros HR HV Hn Hw Hb.
  rewrite g_shape, (size_2d _ _ _ HR).
  split; [destruct (zero_in r_i); f_equal; lia|].
  destruct (non_negative_cases _ Hw) as [Hpos|Hzero].
  - pose proof (fill_i_positive _ _ r_i m n p HR HV Hn Hpos) as Hfill.
    destruct (py_float (word_line r_i)) as [e|r_word]; [done|].
    destruct Hfill as (i_matrix & Hi & Hshape & _).
    exists i_matrix. split; [done|]. rewrite Hshape. by destruct (zero_in r_i).
  - destruct (zero_converts _ Hzero) as [f ->].
    assert (zero_in r_i = true) as -> by (unfold zero_in; by rewrite Hzero).
    apply zero_not_positive in Hzero.
    destruct (fill_i_ideal _ _ r_i m n p HR HV Hzero)
      as (i_matrix & Hi & Hshape & _).
    by exists i_matrix.
Qed.

Lemma i_rows_match_g_witness :
  lil_shape (fill.g R_2x3 (mk_r_i (PyInt 2) (PyFloat 0))) = (2 * 3, 2 * 3)
  ∧ ∃ i_matrix,
      fill.i V_2x2 R_2x3 (mk_r_i (PyInt 2) (PyFloat 0)) = inr i_matrix
      ∧ shape i_matrix
        = [(lil_shape (fill.g R_2x3 (mk_r_i (PyInt 2) (PyFloat 0)))).1; 2].
Proof.
  refine (i_rows_match_g V_2x2 R_2x3 (mk_r_i (PyInt 2) (PyFloat 0)) 2 3 2
            _ _ _ _ _); first [reflexivity | lia | by left | by right].
Defined.

(** ** [compute] *)

Lemma setdefault_union (key : string) (value : pyval) (kwargs : gmap string pyval) :
  setdefault key value kwargs = kwargs ∪ {[key := value]}.
Proof.
  unfold setdefault. apply map_eq. intros k.
  rewrite lookup_union. destruct (kwargs !! key) as [v|] eqn:Hkey.
  - destruct (decide (key = k)) as [<-|Hne].
    + by rewrite Hkey, lookup_singleton_eq.
    + rewrite lookup_singleton_ne by done. by destruct (kwargs !! k).
  - destruct (decide (key = k)) as [<-|Hne].
    + by rewrite lookup_insert_eq, Hkey, lookup_singleton_eq.
    + rewrite lookup_insert_ne, lookup_singleton_ne by done.
      by destruct (kwargs !! k).
Qed.

Lemma defaults_filled (kwargs : gmap string pyval) :
  setdefault "gap_size" (PyNum (PyInt 5))
    (setdefault "show_time" PyTrue
       (setdefault "verbose" (PyNum (PyInt 1))
          (setdefault "all_currents" PyTrue
             (setdefault "node_voltages" PyTrue kwargs))))
  = kwargs ∪ compute_defaults.
Proof.
  rewrite !setdefault_union, <- !(assoc_L (∪)). by f_equal.
Qed.

(** [compute] is validation of the interconnect resistances in effect,
    followed by [solution] on the copies, the same resistances and the
    keyword arguments with the defaults filled in. *)
Lemma compute_runs {Result : Type}
    (solution : loc → pyval → pyval → loc → gmap string pyval → M Result)
    (applied_voltages resistances : loc)
    (r_i r_i_word_line r_i_bit_line : pyval) (kwargs : gmap string pyval) :
  compute solution applied_voltages resistances r_i
    r_i_word_line r_i_bit_line kwargs
  = (let '(word_line, bit_line) :=
       match r_i with
       | PyNone => (r_i_word_line, r_i_bit_line)
       | _ => (r_i, r_i)
       end in
     check.crossbar_requirements resistances applied_voltages word_line bit_line
     ≫= λ '(resistances, applied_voltages),
          solution resistances word_line bit_line applied_voltages
            (kwargs ∪ compute_defaults)).
Proof. unfold compute. by rewrite defaults_filled. Qed.

(** C10: when [r_i] is given, [compute] validates with both interconnect
    resistances equal to [r_i] and hands both to [extract.solution] as
    [r_i]; what was passed for [r_i_word_line] and [r_i_bit_line] plays no
    part, and the call is the call in which both are [r_i]. *)
Theorem r_i_overrides {Result : Type}
    (solution : loc → pyval → pyval → loc → gmap string pyval → M Result)
    (applied_voltages resistances : loc)
    (r_i r_i_word_line r_i_bit_line : pyval) (kwargs : gmap string pyval) :
  r_i ≠ PyNone →
  compute solution applied_voltages resistances r_i
    r_i_word_line r_i_bit_line kwargs
  = (check.crossbar_requirements resistances applied_voltages r_i r_i
     ≫= λ '(resistances, applied_voltages),
          solution resistances r_i r_i applied_voltages
            (kwargs ∪ compute_defaults))
  ∧ compute solution applied_voltages resistances r_i
      r_i_word_line r_i_bit_line kwargs
    = compute solution applied_voltages resistances PyNone r_i r_i kwargs.
Proof.
  intros Hr. rewrite !compute_runs. by destruct r_i.
Qed.

Lemma r_i_overrides_witness :
  compute recording_solution 2%positive 1%positive (PyNum (PyInt 1))
    (PyStr "ignored") (PyNum (PyFloat 7)) ∅
  = (check.crossbar_requirements 1%positive 2%positive
       (PyNum (PyInt 1)) (PyNum (PyInt 1))
     ≫= λ '(resistances, applied_voltages),
          recording_solution resistances (PyNum (PyInt 1)) (PyNum (PyInt 1))
            applied_voltages (∅ ∪ compute_defaults))
  ∧ compute recording_solution 2%positive 1%positive (PyNum (PyInt 1))
      (PyStr "ignored") (PyNum (PyFloat 7)) ∅
    = compute recording_solution 2%positive 1%positive PyNone
        (PyNum (PyInt 1)) (PyNum (PyInt 1)) ∅.
Proof. by apply r_i_overrides. Defined.

(** Validation allocates the two copies, whether it raises or returns, and
    returns references to the copies. *)
Lemma crossbar_requirements_store (σ : store) (resistances applied_voltages : loc)
    (r_i_word_line r_i_bit_line : pyval) :
  let l1 := fresh (dom σ) in
  let σ1 := <[l1 := σ !!! resistances]> σ in
  let l2 := fresh (dom σ1) in
  let σ2 := <[l2 := σ1 !!! applied_voltages]> σ1 in
  let r := check.crossbar_requirements resistances applied_voltages
             r_i_word_line r_i_bit_line σ in
  r.2 = σ2 ∧ ((∃ e, r.1 = inl e) ∨ r.1 = inr (l1, l2)).
Proof.
  intros l1 σ1 l2 σ2.
  unfold check.crossbar_requirements, mbind, M_bind, np_array, read, lift.
  cbn -[for_each check.match_shape check.non_negative_array check.short_circuit].
  match goal with |- (match ?c with _ => _ end).2 = _ ∧ _ => destruct c end;
    split; eauto.
Qed.

Lemma allocated_before_copies (σ : store) (a b : ndarray) (l : loc) :
  let l1 := fresh (dom σ) in
  let σ1 := <[l1 := a]> σ in
  let l2 := fresh (dom σ1) in
  let σ2 := <[l2 := b]> σ1 in
  is_Some (σ !! l) → l ≠ l1 ∧ l ≠ l2 ∧ σ2 !! l = σ !! l.
Proof.
  intros l1 σ1 l2 σ2 Hl.
  assert (l ≠ l1) as H1 by by apply fresh_not_allocated.
  assert (is_Some (σ1 !! l)) as Hl1.
  { subst σ1. by rewrite lookup_insert_ne. }
  assert (l ≠ l2) as H2 by by apply fresh_not_allocated.
  split; [done|]. split; [done|].
  subst σ2 σ1. by rewrite !lookup_insert_ne.
Qed.

Lemma compute_preserves_allocated {Result : Type}
    (solution : loc → pyval → pyval → loc → gmap string pyval → M Result)
    (applied_voltages resistances : loc)
    (r_i r_i_word_line r_i_bit_line : pyval) (kwargs : gmap string pyval)
    (σ : store) (l : loc) :
  reaches_only_its_arguments solution →
  is_Some (σ !! l) →
  (compute solution applied_voltages resistances r_i
     r_i_word_line r_i_bit_line kwargs σ).2 !! l = σ !! l.
Proof.
  intros Hframe Hl. unfold compute.
  set (r_i_word_line' := match r_i with PyNone => r_i_word_line | _ => r_i end).
  set (r_i_bit_line' := match r_i with PyNone => r_i_bit_line | _ => r_i end).
  assert ((match r_i with
           | PyNone => (r_i_word_line, r_i_bit_line)
           | _ => (r_i, r_i)
           end) = (r_i_word_line', r_i_bit_line')) as -> by by destruct r_i.
  unfold mbind, M_bind.
  destruct (crossbar_requirements_store σ resistances applied_voltages
              r_i_word_line' r_i_bit_line') as [Hstore Hresult].
  destruct (allocated_before_copies σ (σ !!! resistances)
              (<[fresh (dom σ) := σ !!! resistances]> σ !!! applied_voltages)
              l Hl) as (H1 & H2 & Hsame).
  destruct (check.crossbar_requirements resistances applied_voltages
              r_i_word_line' r_i_bit_line' σ) as [[e|[l1 l2]] σ2];
    cbn [fst snd] in *; subst σ2.
  - done.
  - destruct Hresult as [[e [=]]|[= -> ->]].
    rewrite Hframe; [done| |done|done]. by rewrite Hsame.
Qed.

(** C9: [compute] leaves the caller's arrays as they were: after the call,
    whether it returns or raises, the store holds the same resistances and
    the same applied voltages at the caller's references, whatever
    [extract.solution] does to the arrays it receives. *)
Theorem compute_preserves_inputs {Result : Type}
    (solution : loc → pyval → pyval → loc → gmap string pyval → M Result)
    (applied_voltages resistances : loc)
    (r_i r_i_word_line r_i_bit_line : pyval) (kwargs : gmap string pyval)
    (σ : store) :
  reaches_only_its_arguments solution →
  is_Some (σ !! applied_voltages) → is_Some (σ !! resistances) →
  let σ' := (compute solution applied_voltages resistances r_i
               r_i_word_line r_i_bit_line kwargs σ).2 in
  σ' !! applied_voltages = σ !! applied_voltages
  ∧ σ' !! resistances = σ !! resistances.
Proof.
  intros Hframe Hv Hr. split; by apply compute_preserves_allocated.
Qed.

Lemma overwriting_solution_reaches_only_its_arguments :
  reaches_only_its_arguments overwriting_solution.
Proof.
  intros resistances rw rb applied_voltages kwargs σ l _ Hr Hv.
  unfold overwriting_solution. cbn [snd]. by rewrite !lookup_insert_ne.
Qed.

Lemma compute_preserves_inputs_witness :
  let σ := caller_store R_2x3 V_2x2 in
  let σ' := (compute overwriting_solution 2%positive 1%positive
               (PyNum (PyInt 1)) PyNone PyNone ∅ σ).2 in
  σ' !! 2%positive = σ !! 2%positive ∧ σ' !! 1%positive = σ !! 1%positive.
Proof.
  apply (compute_preserves_inputs overwriting_solution).
  - exact overwriting_solution_reaches_only_its_arguments.
  - vm_compute. by eexists.
  - vm_compute. by eexists.
Defined.

(** ** The shapes of the result *)

Lemma n_dimensional_2_inr (array : ndarray) (name : string) :
  check.n_dimensional array [2] name = inr tt → ∃ a b, shape array = [a; b].
Proof.
  unfold check.n_dimensional, ndim. case_bool_decide as H; [done|]. intros _.
  apply list_elem_of_singleton in H.
  destruct (shape array) as [|a [|b [|c s]]] eqn:Hs; cbn in H; try lia.
  eauto.
Qed.

Lemma non_empty_inr (array : ndarray) (name : string) :
  check.non_empty array name = inr tt → size array ≠ 0.
Proof. unfold check.non_empty. by destruct (Nat.eqb_spec (size array) 0). Qed.

Lemma match_shape_rows (R V : ndarray) (m n m' p : nat) :
  shape R = [m; n] → shape V = [m'; p] →
  check.match_shape [("resistances", (R, 0)); ("applied_voltages", (V, 0))] = inr tt →
  m = m'.
Proof.
  intros HR HV. unfold check.match_shape, shape_at. cbn. rewrite HR, HV. cbn.
  rewrite Nat.eqb_refl. cbn. by destruct (Nat.eqb_spec m' m).
Qed.

Lemma crossbar_requirements_success (σ : store) (resistances applied_voltages : loc)
    (r_i_word_line r_i_bit_line : pyval) (refs : loc * loc) :
  is_Some (σ !! applied_voltages) →
  (check.crossbar_requirements resistances applied_voltages
     r_i_word_line r_i_bit_line σ).1 = inr refs →
  ∃ m n p,
    shape (σ !!! resistances) = [m; n]
    ∧ shape (σ !!! applied_voltages) = [m; p]
    ∧ 0 < m ∧ 0 < n ∧ 0 < p.
Proof.
  intros Hv.
  unfold check.crossbar_requirements, mbind, M_bind, np_array, read, lift.
  cbn -[for_each check.match_shape check.non_negative_array check.short_circuit].
  rewrite copy_resistances, copy_voltages by done.
  match goal with |- (match ?c with _ => _ end).1 = _ → _ =>
    destruct c as [e|[]] eqn:Hchecks end; [done|]. intros _.
  apply bind_inr in Hchecks as ([] & Hloop & Hchecks).
  apply bind_inr in Hchecks as ([] & _ & Hchecks).
  apply bind_inr in Hchecks as ([] & Hmatch & _).
  cbn [for_each] in Hloop.
  apply bind_inr in Hloop as ([] & HR & Hloop).
  apply bind_inr in Hloop as ([] & HV & _).
  apply bind_inr in HR as ([] & (m & n & HsR)%n_dimensional_2_inr & HR).
  apply bind_inr in HR as ([] & _ & HeR%non_empty_inr).
  apply bind_inr in HV as ([] & (m' & p & HsV)%n_dimensional_2_inr & HV).
  apply bind_inr in HV as ([] & _ & HeV%non_empty_inr).
  pose proof (match_shape_rows _ _ _ _ _ _ HsR HsV Hmatch) as <-.
  rewrite (size_2d _ _ _ HsR) in HeR. rewrite (size_2d _ _ _ HsV) in HeV.
  exists m, n, p. repeat split; try done; nia.
Qed.

Lemma flag_setdefault_other (k key : string) (v : pyval) (kwargs : gmap string pyval) :
  k ≠ key → extract.flag key (setdefault k v kwargs) = extract.flag key kwargs.
Proof.
  intros Hne. unfold extract.flag, setdefault.
  destruct (kwargs !! k); [done|]. by rewrite lookup_insert_ne.
Qed.

Lemma flag_passed_setdefault_other (k key : string) (v : pyval)
    (kwargs : gmap string pyval) :
  k ≠ key → flag_passed key (setdefault k v kwargs) = flag_passed key kwargs.
Proof.
  intros Hne. unfold flag_passed, setdefault.
  destruct (kwargs !! k); [done|]. by rewrite lookup_insert_ne.
Qed.

Lemma flag_setdefault_true (key : string) (kwargs : gmap string pyval) :
  extract.flag key (setdefault key PyTrue kwargs) = flag_passed key kwargs.
Proof.
  unfold extract.flag, flag_passed, setdefault.
  destruct (kwargs !! key) as [v|] eqn:Hk.
  - by rewrite Hk.
  - by rewrite lookup_insert_eq.
Qed.

(** C8, as stated, fails: a successful call that passes
    [node_voltages=False] returns [None] for the node voltages, not an array
    of shape [m x n]. *)
Lemma suppressed_voltages_have_no_shape :
  ∃ sol σ',
    compute extract.solution 2%positive 1%positive (PyNum (PyInt 1))
      PyNone PyNone {["node_voltages" := PyFalse]} (caller_store R_1x1 V_1x1)
    = (inr sol, σ')
    ∧ extract.voltages_word_line (extract.voltages sol) ≠ Some [1; 1].
Proof. eexists _, _. split; [by vm_compute|done]. Qed.

(** C8 (amended): after a successful call with [m] word lines, [n] bit lines
    and [p] examples, the output currents have shape [p x n]; the device,
    word-line and bit-line currents have shape [m x n] when [p = 1] and
    [m x n x p] when [p > 1], unless [all_currents] was passed false, and so
    have the node voltages, unless [node_voltages] was passed false; a
    suppressed field is [None]. *)
Theorem solution_shapes (σ σ' : store) (applied_voltages resistances : loc)
    (r_i r_i_word_line r_i_bit_line : pyval) (kwargs : gmap string pyval)
    (sol : extract.Solution) :
  is_Some (σ !! applied_voltages) →
  compute extract.solution applied_voltages resistances r_i
    r_i_word_line r_i_bit_line kwargs σ = (inr sol, σ') →
  ∃ m n p,
    shape (σ !!! resistances) = [m; n]
    ∧ shape (σ !!! applied_voltages) = [m; p]
    ∧ 0 < p
    ∧ let branch := if (p =? 1)%nat then [m; n] else [m; n; p] in
      let current :=
        if flag_passed "all_currents" kwargs then Some branch else None in
      let voltage :=
        if flag_passed "node_voltages" kwargs then Some branch else None in
      sol = extract.mk_solution
              (extract.mk_currents [p; n] current current current)
              (extract.mk_voltages voltage voltage).
Proof.
  intros Hv. unfold compute.
  set (r_i_word_line' := match r_i with PyNone => r_i_word_line | _ => r_i end).
  set (r_i_bit_line' := match r_i with PyNone => r_i_bit_line | _ => r_i end).
  assert ((match r_i with
           | PyNone => (r_i_word_line, r_i_bit_line)
           | _ => (r_i, r_i)
           end) = (r_i_word_line', r_i_bit_line')) as -> by by destruct r_i.
  unfold mbind at 1, M_bind at 1.
  destruct (crossbar_requirements_store σ resistances applied_voltages
              r_i_word_line' r_i_bit_line') as [Hstore Hresult].
  pose proof (crossbar_requirements_success σ resistances applied_voltages
                r_i_word_line' r_i_bit_line') as Hsuccess.
  destruct (check.crossbar_requirements resistances applied_voltages
              r_i_word_line' r_i_bit_line' σ) as [[e|refs] σ2];
    cbn [fst snd] in *; [done|].
  destruct (Hsuccess refs Hv eq_refl) as (m & n & p & HR & HV & Hm & Hn & Hp).
  destruct Hresult as [[e [=]]|[= ->]]. subst σ2.
  unfold extract.solution, mbind, M_bind, read, lift, mret, M_ret.
  rewrite copy_resistances, copy_voltages by done.
  unfold shape_at. rewrite HR, HV. cbn [lookup list_lookup].
  rewrite !flag_setdefault_other by done.
  rewrite flag_setdefault_true, flag_passed_setdefault_other by done.
  rewrite !flag_setdefault_other by done.
  rewrite flag_setdefault_true.
  intros [= <- _]. by exists m, n, p.
Qed.

Lemma solution_shapes_witness :
  ∃ m n p,
    shape (caller_store R_2x3 V_2x2 !!! 1%positive) = [m; n]
    ∧ shape (caller_store R_2x3 V_2x2 !!! 2%positive) = [m; p]
    ∧ 0 < p
    ∧ extract.mk_solution
        (extract.mk_currents [2; 3] (Some [2; 3; 2]) (Some [2; 3; 2])
           (Some [2; 3; 2]))
        (extract.mk_voltages None None)
      = extract.mk_solution
          (extract.mk_currents [p; n]
             (if flag_passed "all_currents" {["node_voltages" := PyFalse]}
              then Some (if (p =? 1)%nat then [m; n] else [m; n; p]) else None)
             (if flag_passed "all_currents" {["node_voltages" := PyFalse]}
              then Some (if (p =? 1)%nat then [m; n] else [m; n; p]) else None)
             (if flag_passed "all_currents" {["node_voltages" := PyFalse]}
              then Some (if (p =? 1)%nat then [m; n] else [m; n; p]) else None))
          (extract.mk_voltages
             (if flag_passed "node_voltages" {["node_voltages" := PyFalse]}
              then Some (if (p =? 1)%nat then [m; n] else [m; n; p]) else None)
             (if flag_passed "node_voltages" {["node_voltages" := PyFalse]}
              then Some (if (p =? 1)%nat then [m; n] else [m; n; p]) else None)).
Proof.
  eapply (solution_shapes (caller_store R_2x3 V_2x2) _ 2%positive 1%positive
            (PyNum (PyFloat 0.5)) PyNone PyNone {["node_voltages" := PyFalse]}).
  - vm_compute. by eexists.
  - by vm_compute.
Defined.

(** * Further properties of the code *)

(** ** What the checks let through *)

Lemma n_dimensional_inr (array : ndarray) (n_list : list nat) (name : string) :
  check.n_dimensional array n_list name = inr tt ↔ ndim array ∈ n_list.
Proof.
  unfold check.n_dimensional. by case_bool_decide as H; split.
Qed.

Lemma numeric_array_inr (array : ndarray) (name : string) :
  check.numeric_array array name = inr tt
  ↔ issubdtype_number (dtype_of array) = true.
Proof.
  unfold check.numeric_array.
  by destruct (issubdtype_number (dtype_of array)).
Qed.

Lemma non_empty_inr_iff (array : ndarray) (name : string) :
  check.non_empty array name = inr tt ↔ size array ≠ 0.
Proof.
  unfold check.non_empty. by destruct (Nat.eqb_spec (size array) 0).
Qed.

Lemma existsb_false_iff {A} (f : A → bool) (l : list A) :
  existsb f l = false ↔ ∀ x, x ∈ l → f x = false.
Proof.
  induction l as [|y l IH]; cbn.
  - split; [|done]. intros _ x Hx. by apply elem_of_nil in Hx.
  - rewrite orb_false_iff, IH. split.
    + intros [Hy Hl] x [->|Hx]%elem_of_cons; auto.
    + intros H. split; [apply H; left|intros x Hx; apply H; by right].
Qed.

Lemma non_negative_array_inr (array : ndarray) (name : string) :
  check.non_negative_array array name = inr tt
  ↔ ∀ x, x ∈ data array → (x <? 0)%float = false.
Proof.
  unfold check.non_negative_array. rewrite <- existsb_false_iff.
  by destruct (existsb _ _).
Qed.

Lemma non_infinite_array_inr (array : ndarray) (name : string) :
  check.non_infinite_array array name = inr tt
  ↔ ∀ x, x ∈ data array →
      (x =? infinity)%float = false ∧ (x =? neg_infinity)%float = false.
Proof.
  unfold check.non_infinite_array.
  destruct (existsb (λ x, x =? infinity)%float (data array)) eqn:Hp;
    destruct (existsb (λ x, x =? neg_infinity)%float (data array)) eqn:Hn;
    cbn [orb]; split; try done.
  1-3: intros H; exfalso.
  - apply not_false_iff_true in Hp. apply Hp, existsb_false_iff.
    intros x Hx. by apply H.
  - apply not_false_iff_true in Hp. apply Hp, existsb_false_iff.
    intros x Hx. by apply H.
  - apply not_false_iff_true in Hn. apply Hn, existsb_false_iff.
    intros x Hx. by apply H.
  - intros _ x Hx. split.
    + by apply (proj1 (existsb_false_iff _ _) Hp).
    + by apply (proj1 (existsb_false_iff _ _) Hn).
Qed.

Lemma short_circuit_inr (resistances : ndarray) (r_i_word_line r_i_bit_line : pyval) :
  check.short_circuit resistances r_i_word_line r_i_bit_line = inr tt
  ↔ ∀ x, x ∈ data resistances → (x =? 0)%float = false.
Proof.
  unfold check.short_circuit, contains_zero. rewrite <- existsb_false_iff.
  by destruct (existsb _ _).
Qed.

Lemma interconnect_checks_inr (value : pyval) (name : string) :
  (check.number value name;; check.non_negative_number value name) = inr tt
  ↔ resistance_accepted value.
Proof.
  unfold resistance_accepted. destruct value as [x| |s]; cbn.
  - unfold check.non_negative_number. cbn.
    destruct (num_ltb x (PyInt 0)) eqn:Hx; split; try done.
    + by intros (y & [= <-] & Hy); congruence.
    + eauto.
  - split; [done|]. by intros (x & [=] & _).
  - split; [done|]. by intros (x & [=] & _).
Qed.

Lemma for_each_inr {A} (xs : list A) (body : A → exn + unit) :
  for_each xs body = inr tt ↔ ∀ x, x ∈ xs → body x = inr tt.
Proof.
  induction xs as [|y xs IH]; cbn.
  - split; [|done]. intros _ x Hx. by apply elem_of_nil in Hx.
  - split.
    + intros ([] & Hy & Hxs)%bind_inr x [->|Hx]%elem_of_cons; [done|].
      by apply IH.
    + intros H. rewrite (H y) by (by left). cbn. apply IH.
      intros x Hx. apply H. by right.
Qed.

Lemma match_shape_inr (kwargs : list (string * (ndarray * nat))) :
  check.match_shape kwargs = inr tt
  ↔ kwargs ≠ []
    ∧ ∃ dim, ∀ key array d,
        (key, (array, d)) ∈ kwargs → shape array !! d = Some dim.
Proof.
  unfold check.match_shape.
  destruct kwargs as [|[first_key [first_array first_d]] rest] eqn:Hk.
  { split; [done|]. by intros [? _]. }
  rewrite <- Hk. unfold shape_at. cbn [fst snd].
  destruct (shape first_array !! first_d) as [dim|] eqn:Hdim; cbn [mbind exn_bind].
  - rewrite for_each_inr. split.
    + intros H. split; [by rewrite Hk|]. exists dim. intros key array d Hin.
      specialize (H _ Hin). cbn in H.
      destruct (shape array !! d) as [k|]; [|done]. cbn in H.
      destruct (Nat.eqb_spec k dim); by subst.
    + intros (_ & dim' & H) [key [array d]] Hin. cbn.
      assert (dim' = dim) as ->.
      { specialize (H first_key first_array first_d).
        rewrite Hk in H. rewrite Hdim in H.
        by injection (H (list_elem_of_here _ _)). }
      rewrite (H _ _ _ Hin). cbn. by rewrite Nat.eqb_refl.
  - split; [done|]. intros (_ & dim & H). exfalso.
    specialize (H first_key first_array first_d).
    rewrite Hk, Hdim in H. by specialize (H (list_elem_of_here _ _)).
Qed.

Lemma array_checks_inr (value : ndarray) (name : string) :
  (check.n_dimensional value [2] name;;
   check.numeric_array value name;;
   check.non_empty value name) = inr tt
  ↔ ndim value = 2 ∧ issubdtype_number (dtype_of value) = true ∧ size value ≠ 0.
Proof.
  pose proof (non_empty_inr_iff value name) as H3.
  pose proof (numeric_array_inr value name) as H2.
  pose proof (n_dimensional_inr value [2] name) as H1.
  rewrite list_elem_of_singleton in H1.
  destruct (check.n_dimensional value [2] name) as [|[]];
    destruct (check.numeric_array value name) as [|[]];
    destruct (check.non_empty value name) as [|[]]; cbn; intuition discriminate.
Qed.

Lemma crossbar_checks_inr (R V : ndarray) (r_i_word_line r_i_bit_line : pyval) :
  crossbar_checks R V r_i_word_line r_i_bit_line = inr tt
  ↔ arrays_accepted R V
    ∧ resistance_accepted r_i_word_line
    ∧ resistance_accepted r_i_bit_line
    ∧ ∀ x, x ∈ data R → (x =? 0)%float = false.
Proof.
  unfold crossbar_checks, arrays_accepted. cbn [for_each].
  rewrite <- (short_circuit_inr R r_i_word_line r_i_bit_line).
  rewrite <- (interconnect_checks_inr r_i_word_line
                (if py_eq r_i_word_line r_i_bit_line then "r_i" else "r_i_word_line")).
  rewrite <- (interconnect_checks_inr r_i_bit_line
                (if py_eq r_i_word_line r_i_bit_line then "r_i" else "r_i_bit_line")).
  rewrite <- (non_negative_array_inr R "resistances").
  pose proof (array_checks_inr R "resistances") as HR.
  pose proof (array_checks_inr V "applied_voltages") as HV.
  pose proof (match_shape_inr [("resistances", (R, 0)); ("applied_voltages", (V, 0))]) as HM.
  destruct (check.n_dimensional R [2] "resistances";;
            check.numeric_array R "resistances";;
            check.non_empty R "resistances") as [|[]] eqn:E1; cbn [mbind exn_bind];
    [intuition discriminate|].
  destruct (check.n_dimensional V [2] "applied_voltages";;
            check.numeric_array V "applied_voltages";;
            check.non_empty V "applied_voltages") as [|[]] eqn:E2; cbn [mbind exn_bind];
    [intuition discriminate|].
  destruct (check.non_negative_array R "resistances") as [|[]]; cbn [mbind exn_bind];
    [intuition discriminate|].
  assert (check.match_shape [("resistances", (R, 0)); ("applied_voltages", (V, 0))] = inr tt
          ↔ shape R !! 0 = shape V !! 0) as HM'.
  { rewrite HM. split.
    - intros (_ & dim & H).
      rewrite (H "resistances" R 0), (H "applied_voltages" V 0); [done|..].
      + apply list_elem_of_further, list_elem_of_here.
      + apply list_elem_of_here.
    - intros Heq. split; [done|].
      destruct HR as [(HnR & _) _]; [done|]. unfold ndim in HnR.
      destruct (shape R) as [|m [|n [|? ?]]] eqn:HsR; try done.
      exists m. intros key array d [[= -> -> ->]|[[= -> -> ->]|[]%elem_of_nil]%elem_of_cons]%elem_of_cons.
      + by rewrite HsR.
      + by rewrite <- Heq. }
  destruct (check.match_shape _) as [|[]]; cbn [mbind exn_bind]; [intuition discriminate|].
  destruct (check.number r_i_word_line _;; check.non_negative_number r_i_word_line _)
    as [|[]]; cbn [mbind exn_bind]; [intuition discriminate|].
  destruct (check.number r_i_bit_line _;; check.non_negative_number r_i_bit_line _)
    as [|[]]; cbn [mbind exn_bind]; [intuition discriminate|].
  destruct (check.short_circuit R r_i_word_line r_i_bit_line) as [|[]];
    intuition discriminate.
Qed.

(** The checks of [crossbar_requirements] as they run on the two copies. *)
Lemma crossbar_requirements_run (σ : store) (resistances applied_voltages : loc)
    (r_i_word_line r_i_bit_line : pyval) :
  let l1 := fresh (dom σ) in
  let σ1 := <[l1 := σ !!! resistances]> σ in
  let l2 := fresh (dom σ1) in
  let σ2 := <[l2 := σ1 !!! applied_voltages]> σ1 in
  is_Some (σ !! applied_voltages) →
  check.crossbar_requirements resistances applied_voltages
    r_i_word_line r_i_bit_line σ
  = (crossbar_checks (σ !!! resistances) (σ !!! applied_voltages)
       r_i_word_line r_i_bit_line ≫= (λ _, inr (l1, l2)), σ2).
Proof.
  intros l1 σ1 l2 σ2 Hv.
  unfold check.crossbar_requirements, mbind at 1 2 3 4 5, M_bind, np_array, read, lift.
  cbn -[for_each check.match_shape check.non_negative_array check.short_circuit mbind].
  rewrite copy_resistances, copy_voltages by done. fold (crossbar_checks (σ !!! resistances) (σ !!! applied_voltages) r_i_word_line r_i_bit_line).
  by destruct (crossbar_checks _ _ _ _) as [e|[]].
Qed.

(** X1: [crossbar_requirements] returns exactly when both arrays are
    two-dimensional, numeric and not empty, no resistance is negative or
    zero, the arrays have as many rows, and each interconnect resistance is
    an [int] or a [float] that is not below zero. *)
Theorem crossbar_requirements_accepts (σ : store)
    (resistances applied_voltages : loc) (r_i_word_line r_i_bit_line : pyval) :
  is_Some (σ !! applied_voltages) →
  (∃ refs, (check.crossbar_requirements resistances applied_voltages
              r_i_word_line r_i_bit_line σ).1 = inr refs)
  ↔ arrays_accepted (σ !!! resistances) (σ !!! applied_voltages)
    ∧ resistance_accepted r_i_word_line
    ∧ resistance_accepted r_i_bit_line
    ∧ ∀ x, x ∈ data (σ !!! resistances) → (x =? 0)%float = false.
Proof.
  intros Hv. rewrite crossbar_requirements_run by done. cbn [fst].
  rewrite <- crossbar_checks_inr.
  destruct (crossbar_checks _ _ _ _) as [e|[]]; cbn.
  - split; [by intros [? ?]|done].
  - split; [done|]. eauto.
Qed.

Lemma crossbar_requirements_accepts_witness :
  (∃ refs, (check.crossbar_requirements 1%positive 2%positive
              (PyNum (PyFloat nan)) (PyNum (PyInt 0))
              (caller_store R_infinite V_1x3)).1 = inr refs)
  ↔ arrays_accepted R_infinite V_1x3
    ∧ resistance_accepted (PyNum (PyFloat nan))
    ∧ resistance_accepted (PyNum (PyInt 0))
    ∧ ∀ x, x ∈ data R_infinite → (x =? 0)%float = false.
Proof.
  apply (crossbar_requirements_accepts (caller_store R_infinite V_1x3)
           1%positive 2%positive).
  vm_compute. by eexists.
Defined.

(** X2: the references that [crossbar_requirements] returns are two
    different new locations, which hold the entries of the caller's arrays;
    every array that the caller had is where and as it was. *)
Theorem crossbar_requirements_returns_copies (σ σ' : store)
    (resistances applied_voltages : loc) (r_i_word_line r_i_bit_line : pyval)
    (new_resistances new_voltages : loc) :
  is_Some (σ !! applied_voltages) →
  check.crossbar_requirements resistances applied_voltages
    r_i_word_line r_i_bit_line σ = (inr (new_resistances, new_voltages), σ') →
  σ !! new_resistances = None ∧ σ !! new_voltages = None
  ∧ new_resistances ≠ new_voltages
  ∧ σ' !! new_resistances = Some (σ !!! resistances)
  ∧ σ' !! new_voltages = Some (σ !!! applied_voltages)
  ∧ ∀ l, is_Some (σ !! l) → σ' !! l = σ !! l.
Proof.
  intros Hv. rewrite crossbar_requirements_run by done.
  destruct (crossbar_checks _ _ _ _) as [e|[]]; cbn; [done|].
  intros [= <- <- <-].
  set (l1 := fresh (dom σ)).
  set (σ1 := <[l1 := σ !!! resistances]> σ).
  set (l2 := fresh (dom σ1)).
  assert (σ !! l1 = None) as H1 by apply not_elem_of_dom, is_fresh.
  assert (σ1 !! l2 = None) as H2 by apply not_elem_of_dom, is_fresh.
  assert (l1 ≠ l2) as Hne.
  { intros Heq. rewrite <- Heq in H2. subst σ1. by rewrite lookup_insert_eq in H2. }
  assert (σ !! l2 = None) as H2'.
  { subst σ1. by rewrite lookup_insert_ne in H2. }
  assert (applied_voltages ≠ l1) as Hvl by by apply fresh_not_allocated.
  repeat split; try done.
  - rewrite lookup_insert_ne by done. subst σ1. by rewrite lookup_insert_eq.
  - rewrite lookup_insert_eq. subst σ1. by rewrite lookup_total_insert_ne.
  - intros l Hl.
    assert (l1 ≠ l) by (intros <-; rewrite H1 in Hl; by destruct Hl).
    assert (l2 ≠ l) by (intros <-; rewrite H2' in Hl; by destruct Hl).
    subst σ1. by rewrite !lookup_insert_ne.
Qed.

Lemma crossbar_requirements_returns_copies_witness :
  let σ := caller_store R_2x3 V_2x2 in
  let σ' := (check.crossbar_requirements 1%positive 2%positive
               (PyNum (PyInt 1)) (PyNum (PyInt 1)) σ).2 in
  σ !! 3%positive = None ∧ σ !! 4%positive = None
  ∧ 3%positive ≠ 4%positive
  ∧ σ' !! 3%positive = Some (σ !!! 1%positive)
  ∧ σ' !! 4%positive = Some (σ !!! 2%positive)
  ∧ ∀ l, is_Some (σ !! l) → σ' !! l = σ !! l.
Proof.
  apply (crossbar_requirements_returns_copies (caller_store R_2x3 V_2x2) _
           1%positive 2%positive (PyNum (PyInt 1)) (PyNum (PyInt 1))).
  - vm_compute. by eexists.
  - by vm_compute.
Defined.

Lemma n_dimensional_inl (array : ndarray) (n : nat) (name : string) :
  ndim array ≠ n →
  check.n_dimensional array [n] name
  = inl (TypeError ("'" ++ name ++ "' should be " ++ str n
                    ++ "-dimensional array! Instead received "
                    ++ str (ndim array) ++ "-dimensional array.")).
Proof.
  intros H. unfold check.n_dimensional.
  rewrite bool_decide_eq_true_2; [done|]. by intros ?%list_elem_of_singleton.
Qed.

(** X3: the rank of the resistances is checked before everything else: when
    they are not two-dimensional, [crossbar_requirements] raises the
    [TypeError] that says so, whatever the other arguments are. *)
Theorem resistances_rank_checked_first (σ : store)
    (resistances applied_voltages : loc) (r_i_word_line r_i_bit_line : pyval) :
  is_Some (σ !! applied_voltages) →
  ndim (σ !!! resistances) ≠ 2 →
  (check.crossbar_requirements resistances applied_voltages
     r_i_word_line r_i_bit_line σ).1
  = inl (TypeError ("'resistances' should be 2-dimensional array! Instead received "
                    ++ str (ndim (σ !!! resistances)) ++ "-dimensional array.")).
Proof.
  intros Hv Hrank. rewrite crossbar_requirements_run by done.
  unfold crossbar_checks. cbn [fst for_each].
  by rewrite (n_dimensional_inl (σ !!! resistances) 2 "resistances").
Qed.

Lemma resistances_rank_checked_first_witness :
  (check.crossbar_requirements 1%positive 2%positive PyNone (PyStr "x")
     (caller_store (mk_ndarray [3] float64 [1; 2; 3]%float) A_strings)).1
  = inl (TypeError "'resistances' should be 2-dimensional array! Instead received 1-dimensional array.").
Proof.
  apply (resistances_rank_checked_first
           (caller_store (mk_ndarray [3] float64 [1; 2; 3]%float) A_strings)
           1%positive 2%positive).
  - vm_compute. by eexists.
  - by vm_compute.
Defined.

(** X4: a negative resistance is reported before the rows are compared and
    before the interconnect resistances and zero resistances are looked at:
    when both arrays are two-dimensional, numeric and not empty and some
    resistance is negative, [crossbar_requirements] raises the [ValueError]
    of [non_negative_array]. *)
Theorem negative_resistance_reported_first (σ : store)
    (resistances applied_voltages : loc) (r_i_word_line r_i_bit_line : pyval)
    (x : float) :
  is_Some (σ !! applied_voltages) →
  ndim (σ !!! resistances) = 2 →
  issubdtype_number (dtype_of (σ !!! resistances)) = true →
  size (σ !!! resistances) ≠ 0 →
  ndim (σ !!! applied_voltages) = 2 →
  issubdtype_number (dtype_of (σ !!! applied_voltages)) = true →
  size (σ !!! applied_voltages) ≠ 0 →
  x ∈ data (σ !!! resistances) → (x <? 0)%float = true →
  (check.crossbar_requirements resistances applied_voltages
     r_i_word_line r_i_bit_line σ).1
  = inl (ValueError "'resistances' array contains at least one negative value!").
Proof.
  intros Hv HR1 HR2 HR3 HV1 HV2 HV3 Hx Hneg.
  rewrite crossbar_requirements_run by done.
  unfold crossbar_checks. cbn [fst for_each].
  rewrite (proj2 (array_checks_inr (σ !!! resistances) "resistances")) by done.
  rewrite (proj2 (array_checks_inr (σ !!! applied_voltages) "applied_voltages"))
    by done.
  cbn [mbind exn_bind]. unfold check.non_negative_array.
  assert (existsb (λ x, x <? 0)%float (data (σ !!! resistances)) = true) as ->;
    [|done].
  apply existsb_exists. exists x. by rewrite <- list_elem_of_In.
Qed.

Lemma negative_resistance_reported_first_witness :
  (check.crossbar_requirements 1%positive 2%positive PyNone PyNone
     (caller_store (mk_ndarray [1; 2] float64 [0; -1]%float) V_3x2)).1
  = inl (ValueError "'resistances' array contains at least one negative value!").
Proof.
  apply (negative_resistance_reported_first
           (caller_store (mk_ndarray [1; 2] float64 [0; -1]%float) V_3x2)
           1%positive 2%positive PyNone PyNone (-1)%float);
    try (by vm_compute).
  - vm_compute. by eexists.
  - apply list_elem_of_further, list_elem_of_here.
Defined.

(** X5: when the two interconnect resistances come out as one and the same
    value that is not a number - [r_i] given as such, or [r_i] left out and
    both line resistances equal to it, as when nothing is passed and both
    are [None] - [compute] raises a [TypeError] that names [r_i] and the
    type of the value, provided the arrays pass their checks. *)
Theorem compute_rejects_missing_r_i {Result : Type}
    (solution : loc → pyval → pyval → loc → gmap string pyval → M Result)
    (σ : store) (applied_voltages resistances : loc)
    (r_i r_i_word_line r_i_bit_line value : pyval)
    (kwargs : gmap string pyval) :
  is_Some (σ !! applied_voltages) →
  arrays_accepted (σ !!! resistances) (σ !!! applied_voltages) →
  (∀ x, value ≠ PyNum x) →
  (r_i = PyNone ∧ r_i_word_line = value ∧ r_i_bit_line = value)
  ∨ (r_i = value ∧ value ≠ PyNone) →
  (compute solution applied_voltages resistances r_i
     r_i_word_line r_i_bit_line kwargs σ).1
  = inl (TypeError ("Type " ++ type_name value
                    ++ " of 'r_i' is not supported. Use int or float instead.")).
Proof.
  intros Hv Harrays Hvalue Hr_i. unfold compute.
  assert ((match r_i with
           | PyNone => (r_i_word_line, r_i_bit_line)
           | _ => (r_i, r_i)
           end) = (value, value)) as ->.
  { destruct Hr_i as [(-> & -> & ->)|[-> Hnone]]; [done|by destruct value]. }
  unfold mbind, M_bind. rewrite crossbar_requirements_run by done.
  unfold crossbar_checks. cbn [for_each].
  destruct Harrays as (HR1 & HR2 & HR3 & HV1 & HV2 & HV3 & Hneg & Hrows).
  rewrite (proj2 (array_checks_inr (σ !!! resistances) "resistances")) by done.
  rewrite (proj2 (array_checks_inr (σ !!! applied_voltages) "applied_voltages"))
    by done.
  rewrite (proj2 (non_negative_array_inr (σ !!! resistances) "resistances"))
    by done.
  assert (check.match_shape
            [("resistances", (σ !!! resistances, 0));
             ("applied_voltages", (σ !!! applied_voltages, 0))] = inr tt) as ->.
  { apply match_shape_inr. split; [done|]. unfold ndim in HR1.
    destruct (shape (σ !!! resistances)) as [|m [|n [|? ?]]] eqn:HsR; try done.
    exists m. intros key array d
      [[= -> -> ->]|[[= -> -> ->]|[]%elem_of_nil]%elem_of_cons]%elem_of_cons.
    - by rewrite HsR.
    - by rewrite <- Hrows. }
  destruct value as [x| |s]; [by destruct (Hvalue x)|done|].
  cbn. by rewrite bool_decide_eq_true_2.
Qed.

Lemma compute_rejects_missing_r_i_witness :
  (compute extract.solution 2%positive 1%positive PyNone PyNone PyNone ∅
     (caller_store R_2x3 V_2x2)).1
  = inl (TypeError "Type NoneType of 'r_i' is not supported. Use int or float instead.").
Proof.
  apply (compute_rejects_missing_r_i extract.solution (caller_store R_2x3 V_2x2)
           2%positive 1%positive PyNone PyNone PyNone PyNone ∅).
  - vm_compute. by eexists.
  - repeat split; try (by vm_compute).
    intros x Hx. vm_compute in Hx.
    repeat (apply elem_of_cons in Hx as [->|Hx]; [by vm_compute|]).
    by apply elem_of_nil in Hx.
  - done.
  - by left.
Defined.

(** X6: [match_shape] returns exactly when it is given at least one array
    and all its arrays have the dimension asked for, of one and the same
    extent. *)
Theorem match_shape_accepts (kwargs : list (string * (ndarray * nat))) :
  check.match_shape kwargs = inr tt
  ↔ kwargs ≠ []
    ∧ ∃ dim, ∀ key array d,
        (key, (array, d)) ∈ kwargs → shape array !! d = Some dim.
Proof. apply match_shape_inr. Qed.

(** ** [not_none] and [plotting_requirements] *)

Lemma not_none_loop {A} (kwargs : list (string * option A))
    (valid_items : list (string * A)) (all_none : bool) :
  foldl (λ '(valid_items, all_none) '(key, value),
           match value with
           | Some v => ((valid_items ++ [(key, v)])%list, false)
           | None => (valid_items, all_none)
           end)
        (valid_items, all_none) kwargs
  = ((valid_items ++ provided kwargs)%list,
     match provided kwargs with [] => all_none | _ => false end).
Proof.
  revert valid_items all_none.
  induction kwargs as [|[key [v|]] kwargs IH]; intros valid_items all_none.
  - cbn. by rewrite app_nil_r.
  - cbn [foldl]. rewrite IH. unfold provided. cbn.
    rewrite <- app_assoc. cbn. by destruct (omap _ kwargs).
  - cbn [foldl]. rewrite IH. done.
Qed.

Lemma not_none_provided {A} (kwargs : list (string * option A)) :
  check.not_none kwargs
  = match provided kwargs with
    | [] => inl (ValueError ("At least one of {"
                             ++ String.concat ", " (map fst kwargs)
                             ++ "} should be not None!"))
    | items => inr items
    end.
Proof.
  unfold check.not_none. rewrite not_none_loop. cbn [app].
  by destruct (provided kwargs).
Qed.

(** X7: [not_none] returns the items that are not [None], in the order in
    which they were passed, and raises a [ValueError] that lists all the
    names when there is no such item (in particular when nothing is
    passed); so what it returns is never empty. *)
Theorem not_none_returns_provided {A} (kwargs : list (string * option A)) :
  check.not_none kwargs
  = match provided kwargs with
    | [] => inl (ValueError ("At least one of {"
                             ++ String.concat ", " (map fst kwargs)
                             ++ "} should be not None!"))
    | items => inr items
    end.
Proof. apply not_none_provided. Qed.

Lemma map_each_inr {A B} (xs : list A) (body : A → exn + B) (ys : list B) :
  map_each xs body = inr ys → Forall2 (λ x y, body x = inr y) xs ys.
Proof.
  revert ys. induction xs as [|x xs IH]; intros ys; cbn.
  - intros [= <-]. constructor.
  - intros (y & Hy & (ys' & Hys & [= <-])%bind_inr)%bind_inr.
    constructor; auto.
Qed.

Section plotting_properties.

Variable average_if_3D : ndarray → ndarray.

(** What the loop of [plotting_requirements] asks of one array. *)
Lemma plotting_array_inr (key : string) (value : ndarray) (item : string * ndarray) :
  (check.numeric_array value key;;
   check.non_empty value key;;
   check.n_dimensional value [2; 3] key;;
   check.non_infinite_array (average_if_3D value) key;;
   mret (key, average_if_3D value)) = inr item →
  item = (key, average_if_3D value)
  ∧ issubdtype_number (dtype_of value) = true
  ∧ size value ≠ 0
  ∧ ndim value ∈ [2; 3]
  ∧ ∀ x, x ∈ data (average_if_3D value) →
      (x =? infinity)%float = false ∧ (x =? neg_infinity)%float = false.
Proof.
  intros ([] & H1%numeric_array_inr & H)%bind_inr.
  apply bind_inr in H as ([] & H2%non_empty_inr_iff & H).
  apply bind_inr in H as ([] & H3%n_dimensional_inr & H).
  apply bind_inr in H as ([] & H4 & [= <-]).
  by pose proof (proj1 (non_infinite_array_inr _ _) H4).
Qed.

Lemma plotting_loop_inr (valid averaged : list (string * ndarray)) :
  Forall2 (λ kv item,
             (let '(key, value) := kv in
              check.numeric_array value key;;
              check.non_empty value key;;
              check.n_dimensional value [2; 3] key;;
              check.non_infinite_array (average_if_3D value) key;;
              mret (key, average_if_3D value)) = inr item) valid averaged →
  averaged = map (λ '(key, value), (key, average_if_3D value)) valid
  ∧ ∀ key value, (key, value) ∈ valid →
      issubdtype_number (dtype_of value) = true
      ∧ size value ≠ 0
      ∧ ndim value ∈ [2; 3]
      ∧ ∀ x, x ∈ data (average_if_3D value) →
          (x =? infinity)%float = false ∧ (x =? neg_infinity)%float = false.
Proof.
  induction 1 as [|[key value] item valid averaged Hitem _ [-> IH]].
  - split; [done|]. intros key value Hin. by apply elem_of_nil in Hin.
  - apply (plotting_array_inr key value item) in Hitem as [-> Hitem].
    split; [done|].
    intros key' value' [[= -> ->]|Hin]%elem_of_cons; [done|by apply (IH key')].
Qed.

Lemma elem_of_provided {A} (kwargs : list (string * option A)) (key : string) (v : A) :
  (key, v) ∈ provided kwargs ↔ (key, Some v) ∈ kwargs.
Proof.
  unfold provided. rewrite list_elem_of_omap. split.
  - intros ([k [w|]] & Hin & [= -> ->]); done.
  - intros Hin. by exists (key, Some v).
Qed.

(** What a successful run of [plotting_requirements] went through. *)
Lemma plotting_requirements_inr
    (device word_line bit_line word_line_nodes bit_line_nodes : option ndarray)
    (branches : bool) (result : list (option ndarray)) :
  check.plotting_requirements average_if_3D device word_line bit_line
    word_line_nodes bit_line_nodes branches = inr result →
  let kwargs :=
    if branches then
      [("device_branch_vals", device); ("word_line_branch_vals", word_line);
       ("bit_line_branch_vals", bit_line)]
    else
      [("word_line_node_vals", word_line_nodes);
       ("bit_line_node_vals", bit_line_nodes)] in
  result = map (λ kv, average_if_3D <$> kv.2) kwargs
  ∧ (∀ key value, (key, Some value) ∈ kwargs →
       issubdtype_number (dtype_of value) = true
       ∧ size value ≠ 0
       ∧ ndim value ∈ [2; 3]
       ∧ ∀ x, x ∈ data (average_if_3D value) →
           (x =? infinity)%float = false ∧ (x =? neg_infinity)%float = false)
  ∧ (∀ key value key' value' d,
       (key, Some value) ∈ kwargs → (key', Some value') ∈ kwargs → d < 2 →
       shape (average_if_3D value) !! d = shape (average_if_3D value') !! d).
Proof.
  intros H kwargs. unfold check.plotting_requirements in H.
  apply bind_inr in H as (valid & Hvalid & H).
  apply bind_inr in H as (averaged & Haveraged%map_each_inr & H).
  apply bind_inr in H as ([] & Hshapes & H).
  assert (valid = provided kwargs) as ->.
  { subst kwargs. destruct branches; rewrite not_none_provided in Hvalid;
      by destruct (provided _); simplify_eq. }
  apply plotting_loop_inr in Haveraged as [-> Hchecked].
  split; [|split].
  - subst kwargs.
    destruct branches, device, word_line, bit_line, word_line_nodes, bit_line_nodes;
      by injection H as <-.
  - intros key value Hin%elem_of_provided. by apply (Hchecked key).
  - intros key value key' value' d Hin%elem_of_provided Hin'%elem_of_provided Hd.
    rewrite length_map in Hshapes.
    destruct (Nat.eqb_spec (length (provided kwargs)) 1) as [Hone|_];
      cbn [negb] in Hshapes.
    + destruct (provided kwargs) as [|item [|]]; try done.
      apply list_elem_of_singleton in Hin, Hin'. by simplify_eq.
    + pose proof (proj1 (for_each_inr _ _) Hshapes d) as Hd'.
      assert (d ∈ [0; 1]) as Hd01.
      { destruct d as [|[|]]; [left|right; left|lia]. }
      apply Hd', match_shape_inr in Hd01 as (_ & dim & Hdim).
      rewrite (Hdim key (average_if_3D value) d),
              (Hdim key' (average_if_3D value') d); [done|..].
      * apply list_elem_of_fmap. exists (key', average_if_3D value').
        split; [done|]. apply list_elem_of_fmap. by exists (key', value').
      * apply list_elem_of_fmap. exists (key, average_if_3D value).
        split; [done|]. apply list_elem_of_fmap. by exists (key, value).
Qed.

(** X8: when [plotting_requirements] returns, it returns one entry per
    value it looked at, in the order of its parameters: the average of the
    array that was passed, and [None] where [None] was passed. *)
Theorem plotting_requirements_returns_averages
    (device word_line bit_line word_line_nodes bit_line_nodes : option ndarray)
    (branches : bool) (result : list (option ndarray)) :
  check.plotting_requirements average_if_3D device word_line bit_line
    word_line_nodes bit_line_nodes branches = inr result →
  result = if branches
           then [average_if_3D <$> device; average_if_3D <$> word_line;
                 average_if_3D <$> bit_line]
           else [average_if_3D <$> word_line_nodes;
                 average_if_3D <$> bit_line_nodes].
Proof.
  intros [-> _]%plotting_requirements_inr. by destruct branches.
Qed.

(** X9: when [plotting_requirements] returns, every array that it looked at
    is numeric, not empty and of two or three dimensions, and its average
    has no entry equal to plus or minus infinity. *)
Theorem plotting_requirements_checks_every_array
    (device word_line bit_line word_line_nodes bit_line_nodes : option ndarray)
    (branches : bool) (result : list (option ndarray)) (array : ndarray) :
  check.plotting_requirements average_if_3D device word_line bit_line
    word_line_nodes bit_line_nodes branches = inr result →
  Some array ∈ (if branches then [device; word_line; bit_line]
                else [word_line_nodes; bit_line_nodes]) →
  issubdtype_number (dtype_of array) = true
  ∧ size array ≠ 0
  ∧ (ndim array = 2 ∨ ndim array = 3)
  ∧ ∀ x, x ∈ data (average_if_3D array) →
      (x =? infinity)%float = false ∧ (x =? neg_infinity)%float = false.
Proof.
  intros (_ & Hchecked & _)%plotting_requirements_inr Hin.
  assert (∃ key, (key, Some array) ∈
            (if branches then
               [("device_branch_vals", device); ("word_line_branch_vals", word_line);
                ("bit_line_branch_vals", bit_line)]
             else
               [("word_line_node_vals", word_line_nodes);
                ("bit_line_node_vals", bit_line_nodes)])) as [key Hkey].
  { destruct branches; repeat (apply elem_of_cons in Hin as [<-|Hin]);
      try (by apply elem_of_nil in Hin); eexists;
      repeat (first [apply list_elem_of_here | apply list_elem_of_further]). }
  destruct (Hchecked key array Hkey) as (H1 & H2 & H3 & H4).
  repeat split; try done; try (by apply H4).
  repeat (apply elem_of_cons in H3 as [H3|H3]); auto.
  by apply elem_of_nil in H3.
Qed.

(** X10: the arrays that [plotting_requirements] returns have the same
    extent along their first dimension and along their second. *)
Theorem plotting_requirements_shapes_agree
    (device word_line bit_line word_line_nodes bit_line_nodes : option ndarray)
    (branches : bool) (result : list (option ndarray)) (a b : ndarray) (d : nat) :
  check.plotting_requirements average_if_3D device word_line bit_line
    word_line_nodes bit_line_nodes branches = inr result →
  Some a ∈ result → Some b ∈ result → d < 2 →
  shape a !! d = shape b !! d.
Proof.
  intros (-> & _ & Hagree)%plotting_requirements_inr Ha Hb Hd.
  apply list_elem_of_fmap in Ha as ([ka [va|]] & [= ->] & Ha).
  apply list_elem_of_fmap in Hb as ([kb [vb|]] & [= ->] & Hb).
  by apply (Hagree ka va kb vb).
Qed.

End plotting_properties.

Example plotting_nothing_to_plot :
  check.plotting_requirements id None None None (Some R_2x3) (Some R_2x3) true
  = inl (ValueError "At least one of {device_branch_vals, word_line_branch_vals, bit_line_branch_vals} should be not None!").
Proof. reflexivity. Qed.

Example plotting_wrong_rank :
  check.plotting_requirements id None (Some (mk_ndarray [3] float64 [1; 2; 3]%float))
    None None None true
  = inl (TypeError "'word_line_branch_vals' should be 2- or 3-dimensional array! Instead received 1-dimensional array.").
Proof. reflexivity. Qed.

Example plotting_infinite_value :
  check.plotting_requirements id None None None None (Some R_infinite) false
  = inl (ValueError "'bit_line_node_vals' array contains at least one value with infinite magnitude!").
Proof. reflexivity. Qed.

Lemma plotting_requirements_returns_averages_witness :
  [Some R_2x3; None; Some R_2x3]
  = [id <$> Some R_2x3; id <$> None; id <$> Some R_2x3].
Proof.
  apply (plotting_requirements_returns_averages id (Some R_2x3) None (Some R_2x3)
           (Some A_strings) None true).
  reflexivity.
Defined.

Lemma plotting_requirements_checks_every_array_witness :
  issubdtype_number (dtype_of R_2x3) = true
  ∧ size R_2x3 ≠ 0
  ∧ (ndim R_2x3 = 2 ∨ ndim R_2x3 = 3)
  ∧ ∀ x, x ∈ data (id R_2x3) →
      (x =? infinity)%float = false ∧ (x =? neg_infinity)%float = false.
Proof.
  apply (plotting_requirements_checks_every_array id (Some R_2x3) None (Some R_2x3)
           None None true [Some R_2x3; None; Some R_2x3]).
  - reflexivity.
  - apply list_elem_of_here.
Defined.

Lemma plotting_requirements_shapes_agree_witness :
  shape R_2x3 !! 1 = shape (mk_ndarray [2; 3] int64 [0; 0; 0; 0; 0; 7]%float) !! 1.
Proof.
  apply (plotting_requirements_shapes_agree id None None None (Some R_2x3)
           (Some (mk_ndarray [2; 3] int64 [0; 0; 0; 0; 0; 7]%float)) false
           [Some R_2x3; Some (mk_ndarray [2; 3] int64 [0; 0; 0; 0; 0; 7]%float)]).
  - reflexivity.
  - apply list_elem_of_here.
  - apply list_elem_of_further, list_elem_of_here.
  - lia.
Defined.

(** ** More of [fill.i] *)

(** X11: with an ideal bit line and a word line that is not ideal
    ([r_bit == 0 < r_word]) the source matrix has [m*n] rows, holds
    [applied_voltages[i,k] / r_word] at row [i*n], and zero everywhere
    else.  [fill.i] builds it unless [r_word] is an [int] too large for a
    float, where the division raises [OverflowError]. *)
Theorem i_ideal_bit_line (applied_voltages resistances : ndarray)
    (r_i : interconnect) (m n p : nat) :
  shape resistances = [m; n] → shape applied_voltages = [m; p] →
  well_formed applied_voltages → 0 < n →
  positive_number (word_line r_i) = true →
  num_eqb (bit_line r_i) (PyInt 0) = true →
  match py_float (word_line r_i) with
  | inl e => fill.i applied_voltages resistances r_i = inl e
  | inr r_word =>
      ∃ i_matrix,
        fill.i applied_voltages resistances r_i = inr i_matrix
        ∧ shape i_matrix = [m * n; p]
        ∧ (∀ i k, i < m → k < p →
             get2 i_matrix (i * n) k
             = (get2 applied_voltages i k / r_word)%float)
        ∧ (∀ r k, r < m * n → k < p → (∀ i, i < m → r ≠ i * n) →
             get2 i_matrix r k = 0%float)
  end.
Proof.
  intros HR HV Hwf Hn Hw Hb.
  pose proof (fill_i_positive _ _ r_i m n p HR HV Hn Hw) as Hfill.
  destruct (py_float (word_line r_i)) as [e|r_word]; [done|].
  destruct Hfill as (i_matrix & Hi & Hshape & Hget).
  assert (zero_in r_i = true) as Hz.
  { unfold zero_in. by rewrite Hb, orb_true_r. }
  rewrite Hz in Hshape, Hget.
  exists i_matrix. split; [done|]. split; [done|split].
  - intros i k Hi' Hk. rewrite Hget by nia.
    rewrite Nat.Div0.mod_mul, Nat.div_mul by lia.
    cbn [Nat.eqb andb]. destruct (Nat.ltb_spec (i * n) (m * n)); [|nia].
    by apply (get2_scaled _ _ _ m p).
  - intros r k Hr Hk Hother. rewrite Hget by lia.
    destruct (Nat.eqb_spec (r mod n) 0) as [Hmod|]; [|done].
    destruct (Nat.ltb_spec r (m * n)) as [Hlt|]; [|done].
    exfalso. apply (Hother (r / n)).
    + apply Nat.Div0.div_lt_upper_bound. lia.
    + pose proof (Nat.Div0.div_mod r n). lia.
Qed.

Lemma i_ideal_bit_line_witness :
  (∃ i_matrix,
     fill.i V_3x2 (mk_ndarray [3; 1] float64 [7; 8; 9]%float)
       (mk_r_i (PyFloat 4) (PyInt 0)) = inr i_matrix
     ∧ shape i_matrix = [3 * 1; 2]
     ∧ (∀ i k, i < 3 → k < 2 →
          get2 i_matrix (i * 1) k = (get2 V_3x2 i k / 4)%float)
     ∧ (∀ r k, r < 3 * 1 → k < 2 → (∀ i, i < 3 → r ≠ i * 1) →
          get2 i_matrix r k = 0%float))
  ∧ fill.i V_3x2 (mk_ndarray [3; 1] float64 [7; 8; 9]%float)
      (mk_r_i (PyInt (2 ^ 1024)) (PyInt 0))
    = inl (OverflowError "int too large to convert to float").
Proof.
  split.
  - refine (i_ideal_bit_line V_3x2 (mk_ndarray [3; 1] float64 [7; 8; 9]%float)
              (mk_r_i (PyFloat 4) (PyInt 0)) 3 1 2 _ _ _ _ _ _);
      first [reflexivity | lia].
  - refine (i_ideal_bit_line V_3x2 (mk_ndarray [3; 1] float64 [7; 8; 9]%float)
              (mk_r_i (PyInt (2 ^ 1024)) (PyInt 0)) 3 1 2 _ _ _ _ _ _);
      first [by vm_compute | lia].
Defined.

(** X12: [fill.i] and [fill.g] choose their formulation by different tests
    ([r_i.word_line > 0] and [0 in r_i]).  For a word-line resistance that
    is neither positive nor zero, such as NaN, and a bit-line resistance
    that is not zero, the source matrix has [m*n] rows while the conductance
    matrix is of size [2*m*n]. *)
Theorem i_and_g_disagree_out_of_order (applied_voltages resistances : ndarray)
    (r_i : interconnect) (m n p : nat) :
  shape resistances = [m; n] → shape applied_voltages = [m; p] →
  positive_number (word_line r_i) = false →
  num_eqb (word_line r_i) (PyInt 0) = false →
  num_eqb (bit_line r_i) (PyInt 0) = false →
  ∃ i_matrix,
    fill.i applied_voltages resistances r_i = inr i_matrix
    ∧ shape i_matrix = [m * n; p]
    ∧ lil_shape (fill.g resistances r_i) = (2 * (m * n), 2 * (m * n)).
Proof.
  intros HR HV Hpos Hw Hb.
  destruct (fill_i_ideal _ _ r_i m n p HR HV Hpos) as (i_matrix & Hi & Hshape & _).
  exists i_matrix. split; [done|]. split; [done|].
  rewrite g_shape, (size_2d _ _ _ HR). unfold zero_in. by rewrite Hw, Hb.
Qed.

Lemma i_and_g_disagree_out_of_order_witness :
  ∃ i_matrix,
    fill.i V_2x2 R_2x3 (mk_r_i (PyFloat nan) (PyInt 1)) = inr i_matrix
    ∧ shape i_matrix = [2 * 3; 2]
    ∧ lil_shape (fill.g R_2x3 (mk_r_i (PyFloat nan) (PyInt 1)))
      = (2 * (2 * 3), 2 * (2 * 3)).
Proof.
  apply (i_and_g_disagree_out_of_order V_2x2 R_2x3
           (mk_r_i (PyFloat nan) (PyInt 1)) 2 3 2); reflexivity.
Defined.

(** X14: [fill.i] does not compare the rows of its two arrays itself: when
    the voltages have [m'] rows and the resistances [m], with [m'] neither
    [m] nor 1 (and more than one device), the numpy operation it ends with
    cannot broadcast them and [fill.i] raises. *)
Theorem i_raises_on_row_mismatch (applied_voltages resistances : ndarray)
    (r_i : interconnect) (m m' n p : nat) :
  shape resistances = [m; n] → shape applied_voltages = [m'; p] →
  0 < n → m' ≠ m → m' ≠ 1 → m * n ≠ 1 →
  raises (fill.i applied_voltages resistances r_i).
Proof.
  intros HR HV Hn Hm Hm1 Hmn. unfold fill.i, shape_at. rewrite HR, HV.
  cbn [lookup list_lookup mbind exn_bind].
  destruct (positive_number (word_line r_i)).
  - rewrite (size_2d _ _ _ HR). unfold divide_scalar.
    destruct (py_float (word_line r_i)) as [e|divisor]; cbn [mbind exn_bind];
      [by eexists|].
    unfold setitem_rows. destruct (Nat.eqb_spec n 0) as [|_]; [lia|].
    cbn [shape]. rewrite HV. cbn [as_2d].
    assert (shape (np_zeros (if zero_in r_i then (m * n, p) else (2 * (m * n), p)))
            = [if zero_in r_i then m * n else 2 * (m * n); p]) as ->
      by by destruct (zero_in r_i).
    cbn [lookup list_lookup default from_option id].
    assert (range_len ((m * n) `min` (if zero_in r_i then m * n else 2 * (m * n))) n = m)
      as ->.
    { replace ((m * n) `min` _) with (m * n) by (destruct (zero_in r_i); lia).
      by apply range_len_rows. }
    destruct (Nat.eqb_spec m' m) as [|_]; [done|].
    destruct (Nat.eqb_spec m' 1) as [|_]; [done|].
    by eexists.
  - destruct (np_repeat_rows applied_voltages m' p n HV) as (voltages & -> & Hvs & _).
    rewrite reshape_column. cbn [mbind exn_bind].
    destruct (np_repeat_columns
                (mk_ndarray [size resistances; 1] (dtype_of resistances)
                   (data resistances))
                (size resistances) 1 p eq_refl) as (column & -> & Hcs & _).
    cbn [mbind exn_bind]. rewrite (size_2d _ _ _ HR), Nat.mul_1_l in Hcs.
    unfold np_divide, broadcast_shapes. rewrite Hvs, Hcs.
    cbn [reverse rev_append broadcast_reversed mbind option_bind].
    rewrite broadcast_dim_same. cbn [mbind option_bind].
    unfold broadcast_dim.
    destruct (Nat.eqb_spec (m' * n) (m * n)) as [|_]; [nia|].
    destruct (Nat.eqb_spec (m' * n) 1) as [|_]; [nia|].
    destruct (Nat.eqb_spec (m * n) 1) as [|_]; [lia|].
    by eexists.
Qed.

Lemma i_raises_on_row_mismatch_witness :
  raises (fill.i V_3x2 R_2x3 (mk_r_i (PyInt 1) (PyInt 1)))
  ∧ raises (fill.i V_3x2 R_2x3 (mk_r_i (PyInt 0) (PyInt 1))).
Proof.
  split; apply (i_raises_on_row_mismatch V_3x2 R_2x3 _ 2 3 3 2);
    first [reflexivity | lia].
Defined.

(** ** Validation, then assembly *)

Lemma overflow_is_positive (x : number) (e : exn) :
  py_float x = inl e → num_ltb x (PyInt 0) = false → positive_number x = true.
Proof.
  destruct x as [z|f]; [|done]. by destruct z.
Qed.

(** X15: the arrays that [crossbar_requirements] hands on are fit for
    [fill.i]: for the copies it returns and the interconnect resistances it
    has let through, [fill.i] returns a matrix with one column per column
    of the applied voltages, unless [r_word] is an [int] too large for a
    float, where it raises [OverflowError]. *)
Theorem validated_input_fills (σ σ' : store) (resistances applied_voltages : loc)
    (word_line bit_line : number) (new_resistances new_voltages : loc) :
  is_Some (σ !! applied_voltages) →
  check.crossbar_requirements resistances applied_voltages
    (PyNum word_line) (PyNum bit_line) σ
  = (inr (new_resistances, new_voltages), σ') →
  match py_float word_line with
  | inl e =>
      fill.i (σ' !!! new_voltages) (σ' !!! new_resistances)
        (mk_r_i word_line bit_line) = inl e
  | inr _ =>
      ∃ i_matrix rows p,
        fill.i (σ' !!! new_voltages) (σ' !!! new_resistances)
          (mk_r_i word_line bit_line) = inr i_matrix
        ∧ shape (σ' !!! new_voltages) !! 1 = Some p
        ∧ shape i_matrix = [rows; p]
  end.
Proof.
  intros Hv Hcall.
  pose proof (crossbar_requirements_success σ resistances applied_voltages
                (PyNum word_line) (PyNum bit_line) (new_resistances, new_voltages) Hv)
    as (m & n & p & HR & HV & Hm & Hn & Hp); [by rewrite Hcall|].
  rewrite crossbar_requirements_run in Hcall by done.
  destruct (crossbar_checks _ _ _ _) as [e|[]] eqn:Hchecks; [done|].
  apply crossbar_checks_inr in Hchecks as (_ & (x & [= <-] & Hx) & _).
  injection Hcall as <- <- <-.
  rewrite copy_resistances, copy_voltages by done.
  destruct (positive_number word_line) eqn:Hpos.
  - pose proof (fill_i_positive (σ !!! applied_voltages) (σ !!! resistances)
                  (mk_r_i word_line bit_line) m n p HR HV Hn Hpos) as Hfill.
    change (py_float _) with (py_float word_line) in Hfill.
    destruct (py_float word_line) as [e|divisor]; [done|].
    destruct Hfill as (i_matrix & Hi & Hshape & _).
    eexists i_matrix, _, p. by rewrite HV.
  - destruct (py_float word_line) as [e|divisor] eqn:Hfloat.
    { by rewrite (overflow_is_positive _ _ Hfloat Hx) in Hpos. }
    destruct (fill_i_ideal (σ !!! applied_voltages) (σ !!! resistances)
                (mk_r_i word_line bit_line) m n p HR HV Hpos)
      as (i_matrix & Hi & Hshape & _).
    eexists i_matrix, _, p. by rewrite HV.
Qed.

Lemma validated_input_fills_witness :
  (∃ i_matrix rows p,
     fill.i (validated_store !!! 4%positive) (validated_store !!! 3%positive)
       (mk_r_i (PyInt 1) (PyFloat 0.5)) = inr i_matrix
     ∧ shape (validated_store !!! 4%positive) !! 1 = Some p
     ∧ shape i_matrix = [rows; p])
  ∧ fill.i (validated_store !!! 4%positive) (validated_store !!! 3%positive)
      (mk_r_i (PyInt (10 ^ 400)) (PyInt 1))
    = inl (OverflowError "int too large to convert to float").
Proof.
  split.
  - refine (validated_input_fills (caller_store R_2x3 V_2x2) validated_store
              1%positive 2%positive (PyInt 1) (PyFloat 0.5)
              3%positive 4%positive _ _).
    + vm_compute. by eexists.
    + vm_compute. reflexivity.
  - refine (validated_input_fills (caller_store R_2x3 V_2x2) validated_store
              1%positive 2%positive (PyInt (10 ^ 400)) (PyInt 1)
              3%positive 4%positive _ _).
    + vm_compute. by eexists.
    + vm_compute. reflexivity.
Defined.

(** ** The keyword arguments of [compute] *)

(** X16: the keyword arguments that [compute] hands to [extract.solution]
    are the caller's with the five defaults filled in: a key that the
    caller passed keeps the caller's value, and a key that the caller did
    not pass has its default if it is one of the five and is absent
    otherwise. *)
Theorem compute_fills_defaults (σ σ' : store) (applied_voltages resistances : loc)
    (r_i r_i_word_line r_i_bit_line : pyval) (kwargs received : gmap string pyval)
    (new_resistances new_voltages : loc) (word_line bit_line : pyval) :
  compute recording_solution applied_voltages resistances r_i
    r_i_word_line r_i_bit_line kwargs σ
  = (inr (new_resistances, word_line, bit_line, new_voltages, received), σ') →
  received = kwargs ∪ compute_defaults
  ∧ (∀ key value, kwargs !! key = Some value → received !! key = Some value)
  ∧ (∀ key, kwargs !! key = None → received !! key = compute_defaults !! key).
Proof.
  rewrite compute_runs. intros Hcall.
  assert (received = kwargs ∪ compute_defaults) as ->.
  { destruct (match r_i with
              | PyNone => (r_i_word_line, r_i_bit_line)
              | _ => (r_i, r_i)
              end) as [wl bl].
    unfold mbind, M_bind in Hcall.
    destruct (check.crossbar_requirements _ _ _ _ σ) as [[e|[r v]] σ2]; [done|].
    by injection Hcall as _ _ _ _ <- _. }
  split; [done|]. split.
  - intros key value Hkey. by apply lookup_union_Some_l.
  - intros key Hkey. by rewrite lookup_union_r.
Qed.

Lemma compute_fills_defaults_witness :
  caller_kwargs ∪ compute_defaults = caller_kwargs ∪ compute_defaults
  ∧ (∀ key value,
       caller_kwargs !! key = Some value →
       (caller_kwargs ∪ compute_defaults) !! key = Some value)
  ∧ (∀ key,
       caller_kwargs !! key = None →
       (caller_kwargs ∪ compute_defaults) !! key = compute_defaults !! key).
Proof.
  refine (compute_fills_defaults (caller_store R_2x3 V_2x2) validated_store
            2%positive 1%positive (PyNum (PyInt 1)) PyNone PyNone
            caller_kwargs (caller_kwargs ∪ compute_defaults)
            3%positive 4%positive (PyNum (PyInt 1)) (PyNum (PyInt 1)) _).
  reflexivity.
Defined.
